(** * Gluster volume parsers of insights-core

    A shallow embedding of [insights/parsers/gluster_vol.py]: the two
    [parse_content] methods of [GlusterVolInfo] and [GlusterVolStatus],
    the Python string and dictionary operations they rely on, and the
    properties their specification states about them.

    Conventions.
    - A Python [str] is a [string]; characters are code points below 256.
    - A Python [dict] is an insertion-ordered association list with unique
      keys ([Dict.set] overwrites in place or appends).
    - A Python list index or slice bound is a [Z], since the source uses
      the negative bound [-1].
    - A call that may raise returns a [result]; a method of a parser object
      takes the object and returns the object as the call leaves it,
      together with the outcome of the call. *)

From Stdlib Require Import List String Ascii Bool Arith ZArith Lia Sorted.
Import ListNotations.
Local Open Scope string_scope.
Local Open Scope list_scope.

(** ** Exceptions *)

Inductive exn : Type :=
| ParseException
| ValueError
| KeyError
| IndexError.

Inductive result (A : Type) : Type :=
| Ok (a : A)
| Raise (e : exn).

Arguments Ok {A} a.
Arguments Raise {A} e.

Definition bind {A B : Type} (m : result A) (f : A -> result B) : result B :=
  match m with
  | Ok a => f a
  | Raise e => Raise e
  end.

Notation "x <- m ;; k" := (bind m (fun x => k))
  (at level 61, m at next level, right associativity).
Notation "' p <- m ;; k" := (bind m (fun p => k))
  (at level 61, p pattern, m at next level, right associativity).

(** ** Python strings *)

Module PyStr.

(** [str.isspace] on one character, for code points below 256. *)
Definition is_space (c : ascii) : bool :=
  let n := nat_of_ascii c in
  ((9 <=? n)%nat && (n <=? 13)%nat) || ((28 <=? n)%nat && (n <=? 32)%nat)
  || (n =? 133)%nat || (n =? 160)%nat.

(** [s.lstrip()] *)
Fixpoint lstrip (s : string) : string :=
  match s with
  | EmptyString => EmptyString
  | String c s' => if is_space c then lstrip s' else s
  end.

(** [s.rstrip()] *)
Fixpoint rstrip (s : string) : string :=
  match s with
  | EmptyString => EmptyString
  | String c s' =>
      match rstrip s' with
      | EmptyString => if is_space c then EmptyString else String c EmptyString
      | r => String c r
      end
  end.

(** [s.strip()] *)
Definition strip (s : string) : string := lstrip (rstrip s).

(** [s.lstrip(" ")]: only the given character is removed. *)
Fixpoint lstrip_char (x : ascii) (s : string) : string :=
  match s with
  | EmptyString => EmptyString
  | String c s' => if Ascii.eqb c x then lstrip_char x s' else s
  end.

(** [x in s] for a one-character [x]. *)
Fixpoint contains (x : ascii) (s : string) : bool :=
  match s with
  | EmptyString => false
  | String c s' => Ascii.eqb c x || contains x s'
  end.

(** [s.startswith(p)] *)
Fixpoint startswith (s p : string) : bool :=
  match p with
  | EmptyString => true
  | String a p' =>
      match s with
      | EmptyString => false
      | String c s' => Ascii.eqb c a && startswith s' p'
      end
  end.

(** [s.split(x, 1)] for a one-character separator: one piece when [x]
    does not occur, otherwise the text before and after its first
    occurrence. *)
Fixpoint split1 (x : ascii) (s : string) : list string :=
  match s with
  | EmptyString => [EmptyString]
  | String c s' =>
      if Ascii.eqb c x then [EmptyString; s']
      else match split1 x s' with
           | h :: t => String c h :: t
           | [] => []
           end
  end.

(** [a, b = pieces]: unpacking into exactly two names. *)
Definition unpack2 (pieces : list string) : result (string * string) :=
  match pieces with
  | [a; b] => Ok (a, b)
  | _ => Raise ValueError
  end.

(** [s.split()]: the maximal runs of non-whitespace characters.  [cur]
    is the run being read, if any. *)
Fixpoint split_go (cur : option string) (s : string) : list string :=
  match s with
  | EmptyString =>
      match cur with
      | Some w => [w]
      | None => []
      end
  | String c s' =>
      if is_space c then
        match cur with
        | Some w => w :: split_go None s'
        | None => split_go None s'
        end
      else
        match cur with
        | Some w => split_go (Some (w ++ String c EmptyString)%string) s'
        | None => split_go (Some (String c EmptyString)) s'
        end
  end.

Definition split (s : string) : list string := split_go None s.

(** [l[-1]] *)
Fixpoint last_item {A : Type} (l : list A) : result A :=
  match l with
  | [] => Raise IndexError
  | [a] => Ok a
  | _ :: t => last_item t
  end.

(** Truth value of a string: empty strings are false. *)
Definition truthy (s : string) : bool :=
  match s with
  | EmptyString => false
  | _ => true
  end.

End PyStr.

(** ** Python dictionaries with string keys *)

Module Dict.

Definition t (V : Type) : Type := list (string * V).

Definition empty {V : Type} : t V := [].

(** [d[k] = v] *)
Fixpoint set {V : Type} (k : string) (v : V) (d : t V) : t V :=
  match d with
  | [] => [(k, v)]
  | (k', v') :: d' =>
      if String.eqb k' k then (k, v) :: d' else (k', v') :: set k v d'
  end.

(** [d.get(k)] *)
Fixpoint get {V : Type} (k : string) (d : t V) : option V :=
  match d with
  | [] => None
  | (k', v') :: d' => if String.eqb k' k then Some v' else get k d'
  end.

(** [d[k]] *)
Definition item {V : Type} (k : string) (d : t V) : result V :=
  match get k d with
  | Some v => Ok v
  | None => Raise KeyError
  end.

Definition keys {V : Type} (d : t V) : list string := map fst d.

(** Truth value of a dictionary: empty dictionaries are false. *)
Definition truthy {V : Type} (d : t V) : bool :=
  match d with
  | [] => false
  | _ => true
  end.

(** [dict(pairs)]: later pairs overwrite earlier ones. *)
Definition of_list {V : Type} (l : list (string * V)) : t V :=
  fold_left (fun d kv => set (fst kv) (snd kv) d) l empty.

End Dict.

(** ** Python lists *)

Module PyList.

(** A slice bound as Python normalises it against a list of length
    [len]: a negative bound counts from the end, and the outcome is
    clamped to [0 .. len]. *)
Definition bound (len i : Z) : Z :=
  let j := if (i <? 0)%Z then (i + len)%Z else i in
  Z.max 0 (Z.min len j).

(** [l[start:stop]] *)
Definition slice {A : Type} (l : list A) (start stop : Z) : list A :=
  let len := Z.of_nat (List.length l) in
  let s := bound len start in
  let e := bound len stop in
  firstn (Z.to_nat (e - s)) (skipn (Z.to_nat s) l).

(** [list(enumerate(l))], counting from [n]. *)
Fixpoint enumerate_from {A : Type} (n : Z) (l : list A) : list (Z * A) :=
  match l with
  | [] => []
  | a :: l' => (n, a) :: enumerate_from (n + 1) l'
  end.

Definition enumerate {A : Type} (l : list A) : list (Z * A) :=
  enumerate_from 0%Z l.

(** [l[i]] for [0 <= i]. *)
Definition item {A : Type} (l : list A) (i : Z) : result A :=
  if (i <? 0)%Z then Raise IndexError
  else match nth_error l (Z.to_nat i) with
       | Some a => Ok a
       | None => Raise IndexError
       end.

End PyList.

Import PyStr.

(** ** [GlusterVolInfo]

    [get_active_lines] is imported by the source from [insights.parsers];
    the parser is defined for any such function.  Its second argument is
    the optional comment marker, [None] when the caller leaves it out. *)

Module GlusterVolInfo.

(** One volume's attributes. *)
Definition record : Type := Dict.t string.

(** The parser object: its [data] attribute. *)
Record t : Type := { data : Dict.t record }.

(** The variables of [parse_content] while its loop runs: [self.data],
    [name] ([None] until the first marker) and [body]. *)
Record locals : Type :=
  { l_data : Dict.t record; l_name : option string; l_body : record }.

Definition init : locals :=
  {| l_data := Dict.empty; l_name := None; l_body := Dict.empty |}.

(** The first statement of the loop body: the line is split into
    [key] and [val], or the parser gives up. *)
Definition split_line (line : string) : result (string * string) :=
  if contains ":" line then
    '(key, val) <- unpack2 (split1 ":" (strip line)) ;;
    Ok (strip key, lstrip val)
  else Raise ParseException.

(** The rest of the loop body. *)
Definition store (st : locals) (key val : string) : locals :=
  if String.eqb key "Volume Name" then
    match l_name st with
    | None =>
        {| l_data := l_data st; l_name := Some val; l_body := l_body st |}
    | Some name =>
        {| l_data := Dict.set name (l_body st) (l_data st);
           l_name := Some val;
           l_body := Dict.empty |}
    end
  else
    {| l_data := l_data st;
       l_name := l_name st;
       l_body := Dict.set (strip key) (lstrip_char " " val) (l_body st) |}.

Definition step (st : locals) (line : string) : result locals :=
  '(key, val) <- split_line line ;;
  Ok (store st key val).

(** The [for] loop: the variables as the loop leaves them, and the
    exception that ended it, if any. *)
Fixpoint loop (lines : list string) (st : locals) : locals * option exn :=
  match lines with
  | [] => (st, None)
  | line :: rest =>
      match step st line with
      | Ok st' => loop rest st'
      | Raise e => (st, Some e)
      end
  end.

(** [if name and body: self.data[name] = body] *)
Definition commit_last (st : locals) : Dict.t record :=
  match l_name st with
  | Some name =>
      if truthy name && Dict.truthy (l_body st)
      then Dict.set name (l_body st) (l_data st)
      else l_data st
  | None => l_data st
  end.

Section Parser.

Variable get_active_lines : list string -> option string -> list string.

Definition parse_content (self : t) (content : list string)
  : t * result unit :=
  let self := {| data := Dict.empty |} in
  match loop (get_active_lines content None)
             {| l_data := data self; l_name := None; l_body := Dict.empty |}
  with
  | (st, Some e) => ({| data := l_data st |}, Raise e)
  | (st, None) =>
      let self := {| data := commit_last st |} in
      if negb (Dict.truthy (data self))
      then (self, Raise ParseException)
      else (self, Ok tt)
  end.

End Parser.

End GlusterVolInfo.

(** ** [GlusterVolStatus]

    [get_active_lines] and [parse_fixed_table] are imported by the source
    from [insights.parsers]; the parser is defined for any such functions.
    [parse_fixed_table] receives the table lines and the three keyword
    arguments of the call. *)

Module GlusterVolStatus.

(** One row of a status table. *)
Definition row : Type := Dict.t string.

(** The parser object: its [data] attribute. *)
Record t : Type := { data : Dict.t (list row) }.

Definition header_substitute : list (string * string) :=
  [("Gluster process", "Gluster_process");
   ("TCP Port", "TCP_Port");
   ("RDMA Port", "RDMA_Port")].

Definition heading_ignore : list string := ["Gluster process"].

Definition trailing_ignore : list string := ["Task Status"].

Definition is_header (l : string) : bool := startswith l "Status of volume".

(** [idxs = [i for i, l in enumerate(content) if l.startswith(...)]] *)
Definition header_indices (content : list string) : list Z :=
  map fst (filter (fun il => is_header (snd il)) (PyList.enumerate content)).

(** [end = idxs[i+1] if i < len(idxs) - 1 else -1] *)
Definition section_end (idxs : list Z) (i : Z) : result Z :=
  if (i <? Z.of_nat (List.length idxs) - 1)%Z
  then PyList.item idxs (i + 1)
  else Ok (-1)%Z.

(** [content[start:end]], the lines handed to [parse_fixed_table] for
    the header at position [i] of [idxs]. *)
Definition section_lines (content : list string) (idxs : list Z) (i idx : Z)
  : result (list string) :=
  let start := idx in
  end_ <- section_end idxs i ;;
  Ok (PyList.slice content start end_).

(** The body of the inner loop, on one row. *)
Definition enrich (v : row) : result row :=
  gluster_process <- Dict.item "Gluster_process" v ;;
  if startswith gluster_process "Brick" then
    '(_ip, _dir) <- unpack2 (split1 ":" gluster_process) ;;
    w <- last_item (split _ip) ;;
    let v := Dict.set "IP" (strip w) v in
    let v := Dict.set "Directory" (strip _dir) v in
    Ok v
  else if startswith gluster_process "Self-heal" then
    w <- last_item (split gluster_process) ;;
    Ok (Dict.set "Host" w v)
  else Ok v.

(** The inner loop, [for v in body]. *)
Fixpoint enrich_rows (body : list row) : result (list row) :=
  match body with
  | [] => Ok []
  | v :: rest =>
      v' <- enrich v ;;
      rest' <- enrich_rows rest ;;
      Ok (v' :: rest')
  end.

Section Parser.

Variable get_active_lines : list string -> option string -> list string.
Variable parse_fixed_table :
  list string -> list (string * string) -> list string -> list string ->
  result (list row).

(** The body of the outer loop for the header at position [i]. *)
Definition section (content : list string) (idxs : list Z) (i idx : Z)
           (data : Dict.t (list row)) : result (Dict.t (list row)) :=
  let start := idx in
  end_ <- section_end idxs i ;;
  line <- PyList.item content idx ;;
  '(_, val) <- unpack2 (split1 ":" line) ;;
  body <- parse_fixed_table (PyList.slice content start end_)
                            header_substitute heading_ignore
                            trailing_ignore ;;
  body <- enrich_rows body ;;
  Ok (Dict.set (strip val) body data).

(** The outer loop, [for i, idx in enumerate(idxs)]. *)
Fixpoint loop (content : list string) (idxs : list Z)
         (todo : list (Z * Z)) (data : Dict.t (list row))
  : Dict.t (list row) * option exn :=
  match todo with
  | [] => (data, None)
  | (i, idx) :: rest =>
      match section content idxs i idx data with
      | Ok data' => loop content idxs rest data'
      | Raise e => (data, Some e)
      end
  end.

Definition parse_content (self : t) (content : list string)
  : t * result unit :=
  let self := {| data := Dict.empty |} in
  let content := get_active_lines content (Some "----") in
  let idxs := header_indices content in
  match loop content idxs (PyList.enumerate idxs) (data self) with
  | (d, Some e) => ({| data := d |}, Raise e)
  | (d, None) =>
      let self := {| data := d |} in
      if negb (Dict.truthy (data self))
      then (self, Raise ParseException)
      else (self, Ok tt)
  end.

End Parser.

End GlusterVolStatus.

(** ** The two shared utilities

    Concrete versions of the utilities, on which the parsers can be run.
    The general theorems below hold for any utilities; these versions
    serve to evaluate the parsers on sample inputs. *)

Module Utilities.

(** The text of [s] before the first occurrence of [marker]. *)
Fixpoint before (marker s : string) : string :=
  match s with
  | EmptyString => EmptyString
  | String c s' =>
      if startswith s marker then EmptyString else String c (before marker s')
  end.

(** Modelled from the spec: [get_active_lines] is defined in
    [insights/parsers/__init__.py], which is not among the sources.  The
    spec describes it as returning the active lines, those that are
    neither blank nor comments, with an optional marker; for the marker
    ["----"] a line made of a run of dashes is dropped.  Here each line
    is cut at the first occurrence of the marker (["#"] when none is
    given) and trimmed, and is kept when something is left. *)
Definition get_active_lines (lines : list string) (marker : option string)
  : list string :=
  let m := match marker with
           | Some m => m
           | None => "#"
           end in
  filter truthy (map (fun l => strip (before m l)) lines).

(** [s.replace(old, new)] for a non-empty [old]; [skip] counts the
    characters of a matched [old] still to be dropped. *)
Fixpoint replace_go (old new : string) (skip : nat) (s : string) : string :=
  match s with
  | EmptyString => EmptyString
  | String c s' =>
      match skip with
      | S k => replace_go old new k s'
      | O =>
          if startswith s old
          then (new ++ replace_go old new (String.length old - 1) s')%string
          else String c (replace_go old new 0 s')
      end
  end.

Definition replace (old new s : string) : string :=
  match old with
  | EmptyString => s
  | _ => replace_go old new 0 s
  end.

(** The whitespace-delimited tokens of [s] with the offset at which each
    starts; [pos] is the offset of the next character and [cur] the
    token being read. *)
Fixpoint tokens_go (pos : nat) (cur : option (nat * string)) (s : string)
  : list (nat * string) :=
  match s with
  | EmptyString =>
      match cur with
      | Some t => [t]
      | None => []
      end
  | String c s' =>
      if is_space c then
        match cur with
        | Some t => t :: tokens_go (S pos) None s'
        | None => tokens_go (S pos) None s'
        end
      else
        match cur with
        | Some (o, w) =>
            tokens_go (S pos) (Some (o, (w ++ String c EmptyString)%string)) s'
        | None => tokens_go (S pos) (Some (pos, String c EmptyString)) s'
        end
  end.

Definition tokens (s : string) : list (nat * string) := tokens_go 0 None s.

Definition starts_with_any (targets : list string) (l : string) : bool :=
  existsb (startswith (strip l)) targets.

(** The position of the first line that starts with one of [targets]. *)
Fixpoint find_line (targets : list string) (lines : list string)
  : option nat :=
  match lines with
  | [] => None
  | l :: rest =>
      if starts_with_any targets l then Some 0
      else option_map S (find_line targets rest)
  end.

(** The lines before the first one that starts with one of [targets]. *)
Fixpoint until_line (targets : list string) (lines : list string)
  : list string :=
  match lines with
  | [] => []
  | l :: rest =>
      if starts_with_any targets l then [] else l :: until_line targets rest
  end.

(** The cells of one line for the columns [cols], each column running
    from its offset to the offset of the next one, the last one to the
    end of the line. *)
Fixpoint cells (cols : list (nat * string)) (line : string)
  : list (string * string) :=
  match cols with
  | [] => []
  | [(o, h)] => [(h, strip (substring o (String.length line - o) line))]
  | (o, h) :: (((o', _) :: _) as rest) =>
      (h, strip (substring o (o' - o) line)) :: cells rest line
  end.

(** Modelled from the spec: [parse_fixed_table] is defined in
    [insights/parsers/__init__.py], which is not among the sources.
    Following sections 4.2 and 6 of the spec: the column header row is
    the first line that starts with one of the [heading_ignore] labels
    (the first line when there are none); its columns are renamed by
    [header_substitute]; the rows are the lines after it, up to a line
    that starts with one of the [trailing_ignore] markers, which is
    excluded with everything after it; column boundaries are the start
    offsets of the header's tokens, and each cell is trimmed.  The spec
    does not say what happens without a header row: the model raises
    [ValueError] when no line carries a [heading_ignore] label, and
    [IndexError] when the header row is missing or blank. *)
Definition parse_fixed_table (table_lines : list string)
           (header_substitute : list (string * string))
           (heading_ignore trailing_ignore : list string)
  : result (list (Dict.t string)) :=
  first_line <-
    match heading_ignore with
    | [] => Ok 0
    | _ => match find_line heading_ignore table_lines with
           | Some n => Ok n
           | None => Raise ValueError
           end
    end ;;
  header <- PyList.item table_lines (Z.of_nat first_line) ;;
  let header :=
    fold_left (fun h on => replace (fst on) (snd on) h)
              header_substitute header in
  let cols := tokens header in
  match cols with
  | [] => Raise IndexError
  | _ =>
      let rows :=
        match trailing_ignore with
        | [] => skipn (S first_line) table_lines
        | _ => until_line trailing_ignore (skipn (S first_line) table_lines)
        end in
      Ok (map (fun line => Dict.of_list (cells cols line)) rows)
  end.

End Utilities.

(** ** Notions used in the statements *)

(** No character of [s] is whitespace. *)
Fixpoint all_nonspace (s : string) : bool :=
  match s with
  | EmptyString => true
  | String c s' => negb (is_space c) && all_nonspace s'
  end.

(** A word: non-empty and free of whitespace. *)
Definition is_word (w : string) : Prop :=
  w <> EmptyString /\ all_nonspace w = true.

(** The volume name of a header line, as the loop body computes it. *)
Definition volume_name (line : string) : result string :=
  '(_, val) <- unpack2 (split1 ":" line) ;;
  Ok (strip val).

(** The rows of a section: its table, parsed and enriched. *)
Definition rows_of
           (parse_fixed_table :
              list string -> list (string * string) -> list string ->
              list string -> result (list GlusterVolStatus.row))
           (lines : list string) : result (list GlusterVolStatus.row) :=
  body <- parse_fixed_table lines GlusterVolStatus.header_substitute
                            GlusterVolStatus.heading_ignore
                            GlusterVolStatus.trailing_ignore ;;
  GlusterVolStatus.enrich_rows body.

(** The (key, value) pairs of the lines, when every line has a colon. *)
Fixpoint pairs (lines : list string) : result (list (string * string)) :=
  match lines with
  | [] => Ok []
  | line :: rest =>
      kv <- GlusterVolInfo.split_line line ;;
      kvs <- pairs rest ;;
      Ok (kv :: kvs)
  end.

(** The loop of [GlusterVolInfo.parse_content] on lines already split. *)
Definition run (kvs : list (string * string)) (st : GlusterVolInfo.locals)
  : GlusterVolInfo.locals :=
  fold_left (fun st kv => GlusterVolInfo.store st (fst kv) (snd kv)) kvs st.

(** The pair comes from a ["Volume Name"] line. *)
Definition is_marker (kv : string * string) : bool :=
  String.eqb (fst kv) "Volume Name".

(** The values that follow the ["Volume Name"] markers, in order. *)
Definition marker_names (kvs : list (string * string)) : list string :=
  map snd (filter is_marker kvs).

(** The assignments [self.data[name] = body] that the loop performs, in
    order, when it starts with the given [name] and [body]. *)
Fixpoint assignments (kvs : list (string * string)) (name : option string)
         (body : GlusterVolInfo.record)
  : list (string * GlusterVolInfo.record) :=
  match kvs with
  | [] => []
  | (key, val) :: rest =>
      if String.eqb key "Volume Name" then
        match name with
        | None => assignments rest (Some val) body
        | Some n => (n, body) :: assignments rest (Some val) Dict.empty
        end
      else
        assignments rest name
                    (Dict.set (strip key) (lstrip_char " " val) body)
  end.

(** The assignment made after the loop, if any. *)
Definition final_assignment (st : GlusterVolInfo.locals)
  : list (string * GlusterVolInfo.record) :=
  match GlusterVolInfo.l_name st with
  | Some name =>
      if truthy name && Dict.truthy (GlusterVolInfo.l_body st)
      then [(name, GlusterVolInfo.l_body st)]
      else []
  | None => []
  end.

(** The distinct elements of a list, in the order of their first
    occurrence. *)
Fixpoint first_seen (l : list string) : list string :=
  match l with
  | [] => []
  | x :: l' => x :: filter (fun y => negb (String.eqb y x)) (first_seen l')
  end.

(** The value paired with the last occurrence of [k]. *)
Fixpoint last_assoc {V : Type} (k : string) (l : list (string * V))
  : option V :=
  match l with
  | [] => None
  | (k', v) :: l' =>
      match last_assoc k l' with
      | Some v' => Some v'
      | None => if String.eqb k' k then Some v else None
      end
  end.

(** [k in ks] *)
Definition mem (k : string) (ks : list string) : bool :=
  existsb (String.eqb k) ks.

(** The keys of a dictionary after an assignment to the key [k]. *)
Definition add_key (ks : list string) (k : string) : list string :=
  if mem k ks then ks else ks ++ [k].

(** One assignment [d[k] = v], for the pair [(k, v)]. *)
Definition assign {V : Type} (d : Dict.t V) (kv : string * V) : Dict.t V :=
  Dict.set (fst kv) (snd kv) d.

(** A string without whitespace at either end. *)
Definition trimmed (s : string) : Prop := strip s = s.

(** A record whose keys and values are trimmed. *)
Definition record_trimmed (r : GlusterVolInfo.record) : Prop :=
  Forall (fun kv => trimmed (fst kv) /\ trimmed (snd kv)) r.

(** A volume mapping whose names, keys and values are trimmed. *)
Definition data_trimmed (d : Dict.t GlusterVolInfo.record) : Prop :=
  Forall (fun nr => trimmed (fst nr) /\ record_trimmed (snd nr)) d.

(** What the loop of [GlusterVolInfo.parse_content] keeps true of its
    variables. *)
Definition locals_trimmed (st : GlusterVolInfo.locals) : Prop :=
  data_trimmed (GlusterVolInfo.l_data st) /\
  (forall n, GlusterVolInfo.l_name st = Some n -> trimmed n) /\
  record_trimmed (GlusterVolInfo.l_body st).

(** No pair comes from a ["Volume Name"] line. *)
Definition marker_free (attrs : list (string * string)) : Prop :=
  Forall (fun kv => is_marker kv = false) attrs.

(** The record that the attribute pairs [attrs] build on top of [body]. *)
Definition record_of (attrs : list (string * string))
           (body : GlusterVolInfo.record) : GlusterVolInfo.record :=
  fold_left
    (fun b kv => Dict.set (strip (fst kv)) (lstrip_char " " (snd kv)) b)
    attrs body.

(** The pairs of one volume block: its marker, then its attributes. *)
Definition block_pairs (b : string * list (string * string))
  : list (string * string) :=
  ("Volume Name", fst b) :: snd b.

(** The volumes of an input made of the attribute pairs [pre] followed by
    the blocks [blocks]: the pairs of [pre] go to the first volume. *)
Definition volumes (pre : list (string * string))
           (blocks : list (string * list (string * string)))
  : list (string * GlusterVolInfo.record) :=
  match blocks with
  | [] => []
  | (n, attrs) :: rest =>
      (n, record_of (pre ++ attrs) Dict.empty)
        :: map (fun b => (fst b, record_of (snd b) Dict.empty)) rest
  end.

(** The slice bounds of the sections: each header index with the next
    one, the last with [-1]. *)
Fixpoint bounds (idxs : list Z) : list (Z * Z) :=
  match idxs with
  | [] => []
  | a :: rest =>
      (a, match rest with
          | b :: _ => b
          | [] => (-1)%Z
          end) :: bounds rest
  end.

(** The volume name and the rows of the section with the given bounds. *)
Definition section_of
           (parse_fixed_table :
              list string -> list (string * string) -> list string ->
              list string -> result (list GlusterVolStatus.row))
           (content : list string) (se : Z * Z)
  : result (string * list GlusterVolStatus.row) :=
  line <- PyList.item content (fst se) ;;
  name <- volume_name line ;;
  rows <- rows_of parse_fixed_table (PyList.slice content (fst se) (snd se)) ;;
  Ok (name, rows).

(** A table parser that gives up with [ParseException] on every table. *)
Definition refusing_table_parser
           (table_lines : list string)
           (header_substitute : list (string * string))
           (heading_ignore trailing_ignore : list string)
  : result (list GlusterVolStatus.row) :=
  Raise ParseException.

(** * Properties *)

(** ** Strings *)

Section StringFacts.

Lemma is_space_colon : is_space ":" = false.
Proof. reflexivity. Qed.

Lemma lstrip_idem (s : string) : lstrip (lstrip s) = lstrip s.
Proof.
  induction s as [|c s IH]; simpl; [reflexivity|].
  destruct (is_space c) eqn:E; [exact IH|].
  simpl. rewrite E. reflexivity.
Qed.

Lemma lstrip_head (s : string) (c : ascii) (r : string) :
  lstrip s = String c r -> is_space c = false.
Proof.
  induction s as [|a s IH]; simpl; [discriminate|].
  destruct (is_space a) eqn:E; [exact IH|].
  intros H. injection H as -> _. exact E.
Qed.

(** [lstrip s] is what is left of [s] after a prefix of whitespace. *)
Lemma lstrip_suffix (s : string) :
  exists p, s = (p ++ lstrip s)%string.
Proof.
  induction s as [|c s [p IH]]; simpl.
  - exists EmptyString. reflexivity.
  - destruct (is_space c).
    + exists (String c p). simpl. f_equal. exact IH.
    + exists EmptyString. reflexivity.
Qed.

Lemma rstrip_idem (s : string) : rstrip (rstrip s) = rstrip s.
Proof.
  induction s as [|c s IH]; simpl; [reflexivity|].
  destruct (rstrip s) as [|a r] eqn:E.
  - destruct (is_space c) eqn:Ec; simpl; [reflexivity|].
    rewrite Ec. reflexivity.
  - change (rstrip (String c (String a r))) with
      (match rstrip (String a r) with
       | EmptyString =>
           if is_space c then EmptyString else String c EmptyString
       | String _ _ as r0 => String c r0
       end).
    rewrite IH. reflexivity.
Qed.

Lemma rstrip_tail (c : ascii) (s : string) :
  rstrip (String c s) = String c s -> rstrip s = s.
Proof.
  simpl. destruct (rstrip s) as [|a r] eqn:E.
  - destruct (is_space c); [discriminate|].
    intros H. injection H as <-. reflexivity.
  - intros H. injection H as <-. reflexivity.
Qed.

(** A string without trailing whitespace has no suffix with trailing
    whitespace. *)
Lemma rstrip_app_r (p s : string) :
  rstrip (p ++ s) = (p ++ s)%string -> rstrip s = s.
Proof.
  induction p as [|c p IH]; simpl; [trivial|].
  intros H. apply IH. exact (rstrip_tail _ _ H).
Qed.

Lemma rstrip_lstrip (s : string) : rstrip s = s -> rstrip (lstrip s) = lstrip s.
Proof.
  intros H. destruct (lstrip_suffix s) as [p Hp].
  apply rstrip_app_r with (p := p). rewrite <- Hp. exact H.
Qed.

Lemma rstrip_strip (s : string) : rstrip (strip s) = strip s.
Proof. unfold strip. apply rstrip_lstrip, rstrip_idem. Qed.

Lemma strip_idem (s : string) : strip (strip s) = strip s.
Proof.
  unfold strip at 1. rewrite rstrip_strip. unfold strip. apply lstrip_idem.
Qed.

Lemma lstrip_char_space (s : string) :
  lstrip_char " " (lstrip s) = lstrip s.
Proof.
  destruct (lstrip s) as [|c r] eqn:E; [reflexivity|].
  simpl. destruct (Ascii.eqb c " ") eqn:Ec; [|reflexivity].
  apply Ascii.eqb_eq in Ec. subst c.
  apply lstrip_head in E. discriminate.
Qed.

Lemma contains_app (x : ascii) (a b : string) :
  contains x (a ++ b) = contains x a || contains x b.
Proof.
  induction a as [|c a IH]; simpl; [reflexivity|].
  rewrite IH. apply orb_assoc.
Qed.

Lemma contains_lstrip (x : ascii) (s : string) :
  is_space x = false -> contains x (lstrip s) = contains x s.
Proof.
  intros Hx. induction s as [|c s IH]; simpl; [reflexivity|].
  destruct (is_space c) eqn:Ec; [|reflexivity].
  rewrite IH. destruct (Ascii.eqb c x) eqn:E; [|reflexivity].
  apply Ascii.eqb_eq in E. congruence.
Qed.

Lemma contains_rstrip (x : ascii) (s : string) :
  is_space x = false -> contains x (rstrip s) = contains x s.
Proof.
  intros Hx. induction s as [|c s IH]; simpl; [reflexivity|].
  destruct (rstrip s) as [|a r] eqn:E.
  - rewrite <- IH. simpl. rewrite orb_false_r.
    destruct (is_space c) eqn:Ec; simpl.
    + destruct (Ascii.eqb c x) eqn:E'; [|reflexivity].
      apply Ascii.eqb_eq in E'. congruence.
    + rewrite orb_false_r. reflexivity.
  - rewrite <- IH. reflexivity.
Qed.

Lemma contains_strip (x : ascii) (s : string) :
  is_space x = false -> contains x (strip s) = contains x s.
Proof.
  intros Hx. unfold strip.
  rewrite contains_lstrip, contains_rstrip by exact Hx. reflexivity.
Qed.

(** [split1] cuts at the first occurrence of the separator. *)
Lemma split1_found (x : ascii) (s : string) :
  contains x s = true ->
  exists a b, split1 x s = [a; b] /\ s = (a ++ String x b)%string /\
              contains x a = false.
Proof.
  induction s as [|c s IH]; simpl; [discriminate|].
  destruct (Ascii.eqb c x) eqn:E; simpl.
  - intros _. apply Ascii.eqb_eq in E. subst c.
    exists EmptyString, s. auto.
  - intros H. destruct (IH H) as (a & b & Hs & Heq & Ha).
    exists (String c a), b. rewrite Hs. simpl. rewrite E, Ha.
    repeat split. f_equal. exact Heq.
Qed.

Lemma split1_missing (x : ascii) (s : string) :
  contains x s = false -> split1 x s = [s].
Proof.
  induction s as [|c s IH]; simpl; [reflexivity|].
  destruct (Ascii.eqb c x); simpl; [discriminate|].
  intros H. rewrite (IH H). reflexivity.
Qed.

End StringFacts.

(** ** Dictionaries *)

Section DictFacts.

Context {V : Type}.

Lemma get_set_same (k : string) (v : V) (d : Dict.t V) :
  Dict.get k (Dict.set k v d) = Some v.
Proof.
  induction d as [|[k' v'] d IH]; simpl.
  - rewrite String.eqb_refl. reflexivity.
  - destruct (String.eqb k' k) eqn:E; simpl.
    + rewrite String.eqb_refl. reflexivity.
    + rewrite E. exact IH.
Qed.

Lemma get_set_other (k k' : string) (v : V) (d : Dict.t V) :
  k <> k' -> Dict.get k (Dict.set k' v d) = Dict.get k d.
Proof.
  intros Hk. induction d as [|[k0 v0] d IH]; simpl.
  - destruct (String.eqb k' k) eqn:E; [|reflexivity].
    apply String.eqb_eq in E. congruence.
  - destruct (String.eqb k0 k') eqn:E; simpl.
    + apply String.eqb_eq in E. subst k0.
      destruct (String.eqb k' k) eqn:E'; [|reflexivity].
      apply String.eqb_eq in E'. congruence.
    + rewrite IH. reflexivity.
Qed.

Lemma set_not_empty (k : string) (v : V) (d : Dict.t V) :
  Dict.set k v d <> [].
Proof.
  destruct d as [|[k' v'] d]; simpl; [discriminate|].
  destruct (String.eqb k' k); discriminate.
Qed.

Lemma truthy_false (d : Dict.t V) : Dict.truthy d = false <-> d = [].
Proof. destruct d; simpl; split; congruence. Qed.

End DictFacts.

(** ** [GlusterVolInfo]: lines and errors *)

Section InfoLines.

Import GlusterVolInfo.

(** A line with a colon is trimmed, then cut at its first colon. *)
Lemma split_line_found (line : string) :
  contains ":" line = true ->
  exists before after,
    strip line = (before ++ String ":" after)%string /\
    contains ":" before = false /\
    split_line line = Ok (strip before, lstrip after).
Proof.
  intros H. unfold split_line. rewrite H.
  assert (Hs : contains ":" (strip line) = true)
    by (rewrite contains_strip; [exact H | reflexivity]).
  destruct (split1_found _ _ Hs) as (a & b & Hsp & Heq & Ha).
  exists a, b. rewrite Hsp. simpl. auto.
Qed.

Lemma split_line_missing (line : string) :
  contains ":" line = false -> split_line line = Raise ParseException.
Proof. intros H. unfold split_line. rewrite H. reflexivity. Qed.

Lemma step_missing (st : locals) (line : string) :
  contains ":" line = false -> step st line = Raise ParseException.
Proof. intros H. unfold step. rewrite (split_line_missing _ H). reflexivity. Qed.

(** The loop body raises nothing but [ParseException]. *)
Lemma step_raises (st : locals) (line : string) (e : exn) :
  step st line = Raise e -> e = ParseException /\ contains ":" line = false.
Proof.
  destruct (contains ":" line) eqn:H.
  - destruct (split_line_found _ H) as (a & b & _ & _ & Hs).
    unfold step. rewrite Hs. simpl. discriminate.
  - rewrite (step_missing st _ H). intros E. injection E as <-. auto.
Qed.

Lemma loop_missing (lines : list string) :
  (exists line, In line lines /\ contains ":" line = false) ->
  forall st, snd (loop lines st) = Some ParseException.
Proof.
  induction lines as [|l lines IH]; intros (line & Hin & Hc) st.
  - destruct Hin.
  - simpl. destruct (step st l) as [st'|e] eqn:Est.
    + apply IH. destruct Hin as [->|Hin].
      * rewrite (step_missing st _ Hc) in Est. discriminate.
      * exists line. auto.
    + apply step_raises in Est. destruct Est as [-> _]. reflexivity.
Qed.

Lemma loop_raises (lines : list string) (st st' : locals) (e : exn) :
  loop lines st = (st', Some e) ->
  e = ParseException /\
  exists line, In line lines /\ contains ":" line = false.
Proof.
  revert st. induction lines as [|l lines IH]; intros st; simpl.
  - discriminate.
  - destruct (step st l) as [st1|e1] eqn:Est.
    + intros H. destruct (IH _ H) as (He & line & Hin & Hc).
      split; [exact He|]. exists line. auto.
    + intros H. injection H as _ <-.
      apply step_raises in Est. destruct Est as [-> Hc].
      split; [reflexivity|]. exists l. auto.
Qed.

End InfoLines.

(** C4.  [GlusterVolInfo.parse_content] raises [ParseException] whenever
    some active line contains no colon, wherever that line stands among
    the active lines. *)
Theorem info_line_without_colon_raises
        (get_active_lines : list string -> option string -> list string)
        (self : GlusterVolInfo.t) (content : list string) :
  (exists line,
      In line (get_active_lines content None) /\ contains ":" line = false) ->
  snd (GlusterVolInfo.parse_content get_active_lines self content)
  = Raise ParseException.
Proof.
  intros H. unfold GlusterVolInfo.parse_content.
  pose proof (@loop_missing _ H GlusterVolInfo.init) as Hl.
  unfold GlusterVolInfo.init in Hl. simpl.
  destruct (GlusterVolInfo.loop _ _) as [st [e|]]; simpl in Hl.
  - injection Hl as ->. reflexivity.
  - discriminate.
Qed.

Lemma info_line_without_colon_raises_witness :
  snd (GlusterVolInfo.parse_content
         Utilities.get_active_lines {| GlusterVolInfo.data := [] |}
         ["Volume Name: test_vol"; "Type: Replicate"; "Bricks"; "Status: Started"])
  = Raise ParseException.
Proof.
  apply info_line_without_colon_raises.
  exists "Bricks". split.
  - vm_compute. right. right. left. reflexivity.
  - reflexivity.
Defined.





(** ** Empty results *)

Section EmptyResults.

Lemma no_header_indices (content : list string) (n : Z) :
  (forall l, In l content -> startswith l "Status of volume" = false) ->
  filter (fun il : Z * string => GlusterVolStatus.is_header (snd il))
         (PyList.enumerate_from n content) = [].
Proof.
  revert n. induction content as [|l content IH]; intros n H; simpl.
  - reflexivity.
  - unfold GlusterVolStatus.is_header at 1.
    rewrite (H l (or_introl eq_refl)).
    apply IH. intros l' Hl'. apply H. right. exact Hl'.
Qed.

End EmptyResults.

(** C9.  Neither parser reads anything but its input: whatever the parser
    object held before the call, [parse_content] leaves the same object
    and the same outcome, so a second call on the same lines repeats the
    first. *)
Theorem parse_content_deterministic
        (get_active_lines : list string -> option string -> list string)
        (parse_fixed_table :
           list string -> list (string * string) -> list string ->
           list string -> result (list GlusterVolStatus.row))
        (iself iself' : GlusterVolInfo.t) (sself sself' : GlusterVolStatus.t)
        (content : list string) :
  let info := GlusterVolInfo.parse_content get_active_lines in
  let status :=
    GlusterVolStatus.parse_content get_active_lines parse_fixed_table in
  info iself content = info iself' content /\
  status sself content = status sself' content /\
  info (fst (info iself content)) content = info iself content /\
  status (fst (status sself content)) content = status sself content.
Proof. repeat split. Qed.

(** ** Lists, indices and slices *)

Section ListFacts.

Context {A : Type}.

Lemma enumerate_from_bounds (f : Z * A -> bool) (l : list A) (n : Z) :
  let idxs := map fst (filter f (PyList.enumerate_from n l)) in
  Forall (fun i => (n <= i < n + Z.of_nat (List.length l))%Z) idxs /\
  StronglySorted Z.lt idxs.
Proof.
  revert n. induction l as [|a l IH]; intros n; simpl.
  - split; constructor.
  - destruct (IH (n + 1)%Z) as [Hb Hs]. simpl in Hb, Hs.
    assert (Hb' : Forall
                    (fun i => (n + 1 <= i < n + Z.pos (Pos.of_succ_nat (List.length l)))%Z)
                    (map fst (filter f (PyList.enumerate_from (n + 1) l)))).
    { eapply Forall_impl; [|exact Hb]. simpl. intros i Hi. lia. }
    destruct (f (n, a)); simpl.
    + split.
      * constructor; [lia|]. eapply Forall_impl; [|exact Hb'].
        simpl. intros i Hi. lia.
      * constructor; [exact Hs|]. eapply Forall_impl; [|exact Hb'].
        simpl. intros i Hi. lia.
    + split; [|exact Hs]. eapply Forall_impl; [|exact Hb'].
      simpl. intros i Hi. lia.
Qed.

Lemma slice_to_minus_one (l : list A) (idx : Z) :
  (0 <= idx < Z.of_nat (List.length l))%Z ->
  PyList.slice l idx (-1) = removelast (skipn (Z.to_nat idx) l).
Proof.
  intros H. unfold PyList.slice, PyList.bound.
  rewrite (proj2 (Z.ltb_ge idx 0)) by lia. change (-1 <? 0)%Z with true. cbv iota.
  replace (Z.max 0 (Z.min (Z.of_nat (List.length l)) idx)) with idx by lia.
  replace (Z.max 0 (Z.min (Z.of_nat (List.length l))
                          (-1 + Z.of_nat (List.length l))))
    with (Z.of_nat (List.length l) - 1)%Z by lia.
  rewrite removelast_firstn_len. f_equal.
  rewrite length_skipn. lia.
Qed.

Lemma slice_between (l : list A) (i j : Z) :
  (0 <= i <= j)%Z -> (j <= Z.of_nat (List.length l))%Z ->
  PyList.slice l i j = firstn (Z.to_nat (j - i)) (skipn (Z.to_nat i) l).
Proof.
  intros Hi Hj. unfold PyList.slice, PyList.bound.
  rewrite (proj2 (Z.ltb_ge i 0)), (proj2 (Z.ltb_ge j 0)) by lia.
  replace (Z.max 0 (Z.min (Z.of_nat (List.length l)) i)) with i by lia.
  replace (Z.max 0 (Z.min (Z.of_nat (List.length l)) j)) with j by lia.
  reflexivity.
Qed.

Lemma item_in_range (l : list A) (i : Z) :
  (0 <= i < Z.of_nat (List.length l))%Z -> exists a, PyList.item l i = Ok a.
Proof.
  intros H. unfold PyList.item. rewrite (proj2 (Z.ltb_ge i 0)) by lia.
  destruct (nth_error l (Z.to_nat i)) as [a|] eqn:En.
  - exists a. reflexivity.
  - apply nth_error_None in En. lia.
Qed.

End ListFacts.

(** ** [GlusterVolStatus]: sections *)

Section StatusSections.

Import GlusterVolStatus.

Lemma header_indices_bounds (content : list string) :
  Forall (fun i => (0 <= i < Z.of_nat (List.length content))%Z)
         (header_indices content) /\
  StronglySorted Z.lt (header_indices content).
Proof.
  unfold header_indices, PyList.enumerate.
  apply (enumerate_from_bounds
           (fun il : Z * string => is_header (snd il)) content 0).
Qed.

Lemma section_end_last (prev : list Z) (idx : Z) :
  section_end (prev ++ [idx]) (Z.of_nat (List.length prev)) = Ok (-1)%Z.
Proof.
  unfold section_end. rewrite length_app. simpl.
  rewrite (proj2 (Z.ltb_ge _ _)) by lia. reflexivity.
Qed.

End StatusSections.

(** C1.  What the code does for the last header, [content] being the
    active lines: the lines handed to the table parser are the lines from
    that header to the end of the active lines with the final line left
    out, because the slice ends at the bound [-1].  The claim's "all
    lines from that header to the end" therefore fails on every input
    that has a header. *)
Theorem last_section_drops_final_line
        (content : list string) (prev : list Z) (idx : Z) :
  GlusterVolStatus.header_indices content = prev ++ [idx] ->
  exists lines final,
    skipn (Z.to_nat idx) content = lines ++ [final] /\
    GlusterVolStatus.section_lines
      content (prev ++ [idx]) (Z.of_nat (List.length prev)) idx
    = Ok lines.
Proof.
  intros H.
  destruct (header_indices_bounds content) as [Hb _].
  rewrite H in Hb. apply Forall_app in Hb. destruct Hb as [_ Hb].
  inversion Hb as [|? ? Hidx _]; subst.
  unfold GlusterVolStatus.section_lines.
  rewrite section_end_last. simpl.
  rewrite (slice_to_minus_one _ _ Hidx).
  destruct (skipn (Z.to_nat idx) content) as [|a rest] eqn:E.
  - apply (f_equal (@List.length string)) in E.
    rewrite length_skipn in E. simpl in E. lia.
  - destruct (@exists_last _ (a :: rest)) as (lines & final & Hl);
      [discriminate|].
    exists lines, final. rewrite Hl. split; [reflexivity|].
    rewrite removelast_last. reflexivity.
Qed.

Lemma last_section_drops_final_line_witness :
  exists lines final,
    skipn (Z.to_nat 0)
          ["Status of volume: test_vol";
           "Gluster process        TCP Port  RDMA Port  Online  Pid";
           "Brick 10.0.0.1:/brick  49152     0          Y       26685"]
    = lines ++ [final] /\
    GlusterVolStatus.section_lines
      ["Status of volume: test_vol";
       "Gluster process        TCP Port  RDMA Port  Online  Pid";
       "Brick 10.0.0.1:/brick  49152     0          Y       26685"]
      ([] ++ [0%Z]) (Z.of_nat (List.length (@nil Z))) 0%Z
    = Ok lines.
Proof.
  apply (last_section_drops_final_line
           ["Status of volume: test_vol";
            "Gluster process        TCP Port  RDMA Port  Online  Pid";
            "Brick 10.0.0.1:/brick  49152     0          Y       26685"]
           [] 0%Z).
  reflexivity.
Defined.

(** The same input through the whole parser: the brick row, being the
    final active line, never reaches the table parser, and the volume is
    reported without rows. *)
Example status_final_row_lost :
  GlusterVolStatus.parse_content
    Utilities.get_active_lines Utilities.parse_fixed_table
    {| GlusterVolStatus.data := [] |}
    ["Status of volume: test_vol";
     "Gluster process        TCP Port  RDMA Port  Online  Pid";
     "Brick 10.0.0.1:/brick  49152     0          Y       26685"]
  = ({| GlusterVolStatus.data := [("test_vol", [])] |}, Ok tt).
Proof. vm_compute. reflexivity. Qed.

(** ** Whitespace-delimited words *)

Section Words.

Lemma all_nonspace_snoc (w : string) (c : ascii) :
  all_nonspace (w ++ String c EmptyString)
  = all_nonspace w && negb (is_space c).
Proof.
  induction w as [|a w IH]; simpl.
  - apply andb_true_r.
  - rewrite IH. apply andb_assoc.
Qed.

Lemma is_word_snoc (cur : option string) (c : ascii) :
  is_space c = false ->
  match cur with
  | Some w => is_word w
  | None => True
  end ->
  is_word match cur with
          | Some w => (w ++ String c EmptyString)%string
          | None => String c EmptyString
          end.
Proof.
  intros Hc. destruct cur as [w|].
  - intros [_ Hw]. split.
    + destruct w; discriminate.
    + rewrite all_nonspace_snoc, Hw, Hc. reflexivity.
  - intros _. split; [discriminate|]. simpl. rewrite Hc. reflexivity.
Qed.

Lemma split_go_words (s : string) (cur : option string) :
  match cur with
  | Some w => is_word w
  | None => True
  end ->
  Forall is_word (split_go cur s).
Proof.
  revert cur. induction s as [|c s IH]; intros cur Hcur; simpl.
  - destruct cur; [constructor; [exact Hcur|constructor]|constructor].
  - destruct (is_space c) eqn:Ec.
    + destruct cur.
      * constructor; [exact Hcur|]. apply IH. exact I.
      * apply IH. exact I.
    + pose proof (is_word_snoc cur c Ec Hcur) as Hw.
      destruct cur; apply IH; exact Hw.
Qed.

Lemma split_go_some (s : string) (w : string) : split_go (Some w) s <> [].
Proof.
  revert w. induction s as [|c s IH]; intros w; simpl.
  - discriminate.
  - destruct (is_space c); [discriminate|apply IH].
Qed.

(** A string that starts with a visible character has a first word. *)
Lemma split_starts_visible (c : ascii) (s : string) :
  is_space c = false -> split (String c s) <> [].
Proof.
  intros Hc. unfold split. simpl. rewrite Hc. apply split_go_some.
Qed.

Lemma last_item_some {A : Type} (l : list A) :
  l <> [] -> exists a, last_item l = Ok a /\ In a l.
Proof.
  induction l as [|a l IH]; [congruence|]. intros _.
  destruct l as [|b l].
  - exists a. simpl. auto.
  - destruct IH as (x & Hx & Hin); [discriminate|].
    exists x. split; [exact Hx|right; exact Hin].
Qed.

Lemma word_rstrip (w : string) : all_nonspace w = true -> rstrip w = w.
Proof.
  induction w as [|c w IH]; simpl; [reflexivity|].
  intros H. apply andb_true_iff in H. destruct H as [Hc Hw].
  rewrite (IH Hw). apply negb_true_iff in Hc.
  destruct w; [rewrite Hc|]; reflexivity.
Qed.

Lemma word_strip (w : string) : is_word w -> strip w = w.
Proof.
  intros [Hne Hw]. unfold strip. rewrite (word_rstrip _ Hw).
  destruct w as [|c w]; [reflexivity|]. simpl in *.
  apply andb_true_iff in Hw. destruct Hw as [Hc _].
  apply negb_true_iff in Hc. rewrite Hc. reflexivity.
Qed.

(** The last word of a string that starts with a visible character. *)
Lemma last_word (c : ascii) (s : string) :
  is_space c = false ->
  exists w, last_item (split (String c s)) = Ok w /\ strip w = w.
Proof.
  intros Hc.
  destruct (last_item_some _ (split_starts_visible c s Hc)) as (w & Hw & Hin).
  exists w. split; [exact Hw|]. apply word_strip.
  pose proof (split_go_words (String c s) None I) as Hall.
  rewrite Forall_forall in Hall. apply Hall. exact Hin.
Qed.

End Words.

(** ** [GlusterVolStatus]: derived fields *)

Section DerivedFields.

Import GlusterVolStatus.

Lemma enrich_rows_each (body rows : list row) :
  enrich_rows body = Ok rows ->
  Forall2 (fun v v' => enrich v = Ok v') body rows.
Proof.
  revert rows. induction body as [|v body IH]; intros rows; simpl.
  - intros H. injection H as <-. constructor.
  - destruct (enrich v) as [v'|e] eqn:Ev; simpl; [|discriminate].
    destruct (enrich_rows body) as [rest|e] eqn:Er; simpl; [|discriminate].
    intros H. injection H as <-. constructor; [exact Ev|].
    apply IH. reflexivity.
Qed.

End DerivedFields.



(** ** [GlusterVolStatus]: two sections *)

Section TwoSections.

Import GlusterVolStatus.

Variable parse_fixed_table :
  list string -> list (string * string) -> list string -> list string ->
  result (list row).

Lemma section_ok (content : list string) (idxs : list Z) (i idx : Z)
      (d d' : Dict.t (list row)) :
  section parse_fixed_table content idxs i idx d = Ok d' ->
  exists end_ line name rows,
    section_end idxs i = Ok end_ /\
    PyList.item content idx = Ok line /\
    volume_name line = Ok name /\
    rows_of parse_fixed_table (PyList.slice content idx end_) = Ok rows /\
    d' = Dict.set name rows d.
Proof.
  unfold section, volume_name, rows_of.
  destruct (section_end idxs i) as [end_|e]; simpl; [|discriminate].
  destruct (PyList.item content idx) as [line|e]; simpl; [|discriminate].
  destruct (unpack2 (split1 ":" line)) as [[a val]|e] eqn:Eu; simpl;
    [|discriminate].
  destruct (parse_fixed_table _ _ _ _) as [body|e] eqn:Ep; simpl;
    [|discriminate].
  destruct (enrich_rows body) as [rows|e] eqn:Er; simpl; [|discriminate].
  intros H. injection H as <-.
  exists end_, line, (strip val), rows.
  rewrite Eu, Ep. simpl. rewrite Er. repeat split.
Qed.

End TwoSections.

(** C7, as stated, fails: two headers that carry the same volume name
    leave one key, the second section replacing the first. *)
Lemma status_two_headers_one_key :
  let content :=
    ["Status of volume: test_vol";
     "Gluster process        TCP Port  RDMA Port  Online  Pid";
     "Brick 10.0.0.1:/brick  49152     0          Y       26685";
     "Status of volume: test_vol";
     "Gluster process        TCP Port  RDMA Port  Online  Pid";
     "Brick 10.0.0.2:/brick  49153     0          Y       27094";
     "Task Status of Volume test_vol"] in
  GlusterVolStatus.header_indices
    (Utilities.get_active_lines content (Some "----")) = [0%Z; 3%Z] /\
  GlusterVolStatus.parse_content
    Utilities.get_active_lines Utilities.parse_fixed_table
    {| GlusterVolStatus.data := [] |} content
  = ({| GlusterVolStatus.data :=
         [("test_vol",
           [[("Gluster_process", "Brick 10.0.0.2:/brick");
             ("TCP_Port", "49153"); ("RDMA_Port", "0"); ("Online", "Y");
             ("Pid", "27094"); ("IP", "10.0.0.2"); ("Directory", "/brick")]])]
      |}, Ok tt).
Proof. vm_compute. split; reflexivity. Qed.

(** C7 (amended).  When the active lines have exactly two header lines
    and parsing ends without an exception, the result has the two volume
    names as its keys, in this order, provided the names differ (equal
    names leave one key, holding the second section); the rows stored for
    the first header are parsed from the lines from the first header up
    to, and not including, the second header. *)
Theorem two_headers_two_sections
        (get_active_lines : list string -> option string -> list string)
        (parse_fixed_table :
           list string -> list (string * string) -> list string ->
           list string -> result (list GlusterVolStatus.row))
        (self : GlusterVolStatus.t) (content : list string) (i0 i1 : Z) :
  let active := get_active_lines content (Some "----") in
  let out :=
    GlusterVolStatus.parse_content get_active_lines parse_fixed_table
                                   self content in
  GlusterVolStatus.header_indices active = [i0; i1] ->
  snd out = Ok tt ->
  exists l0 l1 name0 name1 rows0 rows1,
    PyList.item active i0 = Ok l0 /\
    PyList.item active i1 = Ok l1 /\
    volume_name l0 = Ok name0 /\
    volume_name l1 = Ok name1 /\
    rows_of parse_fixed_table
            (firstn (Z.to_nat (i1 - i0)) (skipn (Z.to_nat i0) active))
    = Ok rows0 /\
    rows_of parse_fixed_table (PyList.slice active i1 (-1)) = Ok rows1 /\
    (name0 <> name1 ->
     GlusterVolStatus.data (fst out) = [(name0, rows0); (name1, rows1)]) /\
    (name0 = name1 ->
     GlusterVolStatus.data (fst out) = [(name1, rows1)]).
Proof.
  intros active out Hidx Hout. subst out.
  unfold GlusterVolStatus.parse_content in *. cbv zeta in *.
  fold active in Hout |- *. rewrite Hidx in Hout |- *.
  unfold PyList.enumerate in *. simpl PyList.enumerate_from in *.
  simpl GlusterVolStatus.loop in *.
  destruct (GlusterVolStatus.section parse_fixed_table active [i0; i1] 0 i0 _)
    as [d1|e] eqn:E0; [|discriminate Hout].
  destruct (GlusterVolStatus.section parse_fixed_table active [i0; i1] 1 i1 d1)
    as [d2|e] eqn:E1; [|discriminate Hout].
  apply section_ok in E0. destruct E0 as (e0 & l0 & n0 & r0 & He0 & Hl0 & Hn0 & Hr0 & ->).
  apply section_ok in E1. destruct E1 as (e1 & l1 & n1 & r1 & He1 & Hl1 & Hn1 & Hr1 & ->).
  assert (e0 = i1) by (vm_compute in He0; congruence). subst e0.
  assert (e1 = (-1)%Z) by (vm_compute in He1; congruence). subst e1.
  destruct (header_indices_bounds active) as [Hb Hs].
  rewrite Hidx in Hb, Hs.
  inversion Hb as [|? ? Hb0 Hb']; subst. inversion Hb' as [|? ? Hb1 _]; subst.
  inversion Hs as [|? ? _ Hlt]; subst. inversion Hlt as [|? ? Hlt01 _]; subst.
  rewrite slice_between in Hr0 by lia.
  exists l0, l1, n0, n1, r0, r1. repeat split; try assumption.
  - intros Hne. simpl. destruct (String.eqb n0 n1) eqn:E; [|reflexivity].
    apply String.eqb_eq in E. contradiction.
  - intros ->. simpl. rewrite String.eqb_refl. reflexivity.
Qed.

Lemma two_headers_two_sections_witness :
  Dict.keys
    (GlusterVolStatus.data
       (fst (GlusterVolStatus.parse_content
               Utilities.get_active_lines Utilities.parse_fixed_table
               {| GlusterVolStatus.data := [] |}
               ["Status of volume: vol_a";
                "Gluster process        TCP Port  RDMA Port  Online  Pid";
                "Brick 10.0.0.1:/brick  49152     0          Y       26685";
                "Status of volume: vol_b";
                "Gluster process        TCP Port  RDMA Port  Online  Pid";
                "Brick 10.0.0.2:/brick  49153     0          Y       27094";
                "Task Status of Volume vol_b"])))
  = ["vol_a"; "vol_b"].
Proof.
  destruct (two_headers_two_sections
              Utilities.get_active_lines Utilities.parse_fixed_table
              {| GlusterVolStatus.data := [] |}
              ["Status of volume: vol_a";
               "Gluster process        TCP Port  RDMA Port  Online  Pid";
               "Brick 10.0.0.1:/brick  49152     0          Y       26685";
               "Status of volume: vol_b";
               "Gluster process        TCP Port  RDMA Port  Online  Pid";
               "Brick 10.0.0.2:/brick  49153     0          Y       27094";
               "Task Status of Volume vol_b"]
              0%Z 3%Z eq_refl eq_refl)
    as (l0 & l1 & n0 & n1 & r0 & r1 & H0 & H1 & Hn0 & Hn1 & _ & _ & Hne & _).
  vm_compute in H0, H1. injection H0 as <-. injection H1 as <-.
  vm_compute in Hn0, Hn1. injection Hn0 as <-. injection Hn1 as <-.
  rewrite Hne by discriminate. reflexivity.
Defined.

(** ** [GlusterVolInfo]: volumes and their records *)

Section OrderedKeys.

Context {V : Type}.

Lemma keys_set (k : string) (v : V) (d : Dict.t V) :
  Dict.keys (Dict.set k v d) = add_key (Dict.keys d) k.
Proof.
  unfold add_key, mem. induction d as [|[k' v'] d IH]; simpl; [reflexivity|].
  destruct (String.eqb k' k) eqn:E; simpl.
  - apply String.eqb_eq in E. subst k'. rewrite String.eqb_refl. reflexivity.
  - rewrite String.eqb_sym, E. simpl. rewrite IH.
    destruct (existsb _ _); reflexivity.
Qed.

Lemma keys_assign_all (l : list (string * V)) (d : Dict.t V) :
  Dict.keys (fold_left assign l d) = fold_left add_key (map fst l) (Dict.keys d).
Proof.
  revert d. induction l as [|[k v] l IH]; intros d; simpl; [reflexivity|].
  rewrite IH. unfold assign. simpl. rewrite keys_set. reflexivity.
Qed.

Lemma get_assign_all (k : string) (l : list (string * V)) (d : Dict.t V) :
  Dict.get k (fold_left assign l d)
  = match last_assoc k l with
    | Some v => Some v
    | None => Dict.get k d
    end.
Proof.
  revert d. induction l as [|[k' v] l IH]; intros d; simpl; [reflexivity|].
  rewrite IH. destruct (last_assoc k l); [reflexivity|].
  unfold assign. simpl. destruct (String.eqb k' k) eqn:E.
  - apply String.eqb_eq in E. subst k'. apply get_set_same.
  - apply get_set_other. intros ->. rewrite String.eqb_refl in E. discriminate.
Qed.

End OrderedKeys.

Section FirstSeen.

Lemma filter_filter {A : Type} (f g : A -> bool) (l : list A) :
  filter f (filter g l) = filter (fun x => g x && f x) l.
Proof.
  induction l as [|a l IH]; simpl; [reflexivity|].
  destruct (g a); simpl; [|exact IH].
  destruct (f a); rewrite IH; reflexivity.
Qed.

Lemma filter_all {A : Type} (f : A -> bool) (l : list A) :
  (forall x, In x l -> f x = true) -> filter f l = l.
Proof.
  induction l as [|a l IH]; intros H; simpl; [reflexivity|].
  rewrite (H a (or_introl eq_refl)). f_equal.
  apply IH. intros x Hx. apply H. right. exact Hx.
Qed.

Lemma add_keys_first_seen (l acc : list string) :
  fold_left add_key l acc
  = acc ++ filter (fun x => negb (mem x acc)) (first_seen l).
Proof.
  revert acc. induction l as [|x l IH]; intros acc; simpl.
  - rewrite app_nil_r. reflexivity.
  - rewrite IH. unfold add_key. rewrite filter_filter.
    destruct (mem x acc) eqn:E; simpl.
    + f_equal. apply filter_ext. intros y.
      destruct (String.eqb y x) eqn:Ey; simpl; [|reflexivity].
      apply String.eqb_eq in Ey. subst y. rewrite E. reflexivity.
    + rewrite <- app_assoc. simpl. do 2 f_equal.
      apply filter_ext. intros y. unfold mem.
      rewrite existsb_app. simpl. rewrite orb_false_r, negb_orb.
      apply andb_comm.
Qed.

Lemma first_seen_in (l : list string) (x : string) :
  In x (first_seen l) <-> In x l.
Proof.
  induction l as [|a l IH]; simpl; [tauto|].
  rewrite filter_In, IH. split.
  - intros [H|[H _]]; auto.
  - intros [H|H]; [auto|].
    destruct (String.eqb x a) eqn:E.
    + apply String.eqb_eq in E. auto.
    + right. auto.
Qed.

Lemma first_seen_nodup (l : list string) : NoDup (first_seen l).
Proof.
  induction l as [|a l IH]; simpl; constructor.
  - rewrite filter_In. intros [_ H]. rewrite String.eqb_refl in H. discriminate.
  - apply NoDup_filter. exact IH.
Qed.

Lemma first_seen_of_nodup (l : list string) : NoDup l -> first_seen l = l.
Proof.
  induction 1 as [|a l Ha Hl IH]; simpl; [reflexivity|].
  rewrite IH. f_equal. apply filter_all. intros x Hx.
  destruct (String.eqb x a) eqn:E; [|reflexivity].
  apply String.eqb_eq in E. subst x. contradiction.
Qed.

Lemma add_keys_from_empty (l : list string) :
  fold_left add_key l [] = first_seen l.
Proof.
  rewrite add_keys_first_seen. simpl. apply filter_all. reflexivity.
Qed.

End FirstSeen.

Section InfoVolumes.

Import GlusterVolInfo.

Lemma loop_pairs (lines : list string) (kvs : list (string * string)) :
  pairs lines = Ok kvs -> forall st, loop lines st = (run kvs st, None).
Proof.
  revert kvs. induction lines as [|line lines IH]; intros kvs; simpl.
  - intros H. injection H as <-. reflexivity.
  - unfold step.
    destruct (split_line line) as [[k v]|e]; simpl; [|discriminate].
    destruct (pairs lines) as [rest|e]; simpl; [|discriminate].
    intros H st. injection H as <-. simpl. apply IH. reflexivity.
Qed.

Lemma run_data (kvs : list (string * string)) (st : locals) :
  l_data (run kvs st)
  = fold_left assign (assignments kvs (l_name st) (l_body st)) (l_data st).
Proof.
  revert st. induction kvs as [|[k v] kvs IH]; intros st; simpl;
    [reflexivity|].
  unfold run in *. simpl. rewrite IH. unfold store.
  destruct (String.eqb k "Volume Name"); [|reflexivity].
  destruct (l_name st); reflexivity.
Qed.

Lemma run_name (kvs : list (string * string)) (st : locals) :
  l_name (run kvs st)
  = fold_left (fun _ n => Some n) (marker_names kvs) (l_name st).
Proof.
  revert st. induction kvs as [|[k v] kvs IH]; intros st; simpl;
    [reflexivity|].
  unfold run in *. simpl. rewrite IH. unfold store, marker_names, is_marker.
  simpl. destruct (String.eqb k "Volume Name"); [|reflexivity].
  destruct (l_name st); reflexivity.
Qed.

Lemma assignments_names (kvs : list (string * string)) (name : option string)
      (body : record) :
  map fst (assignments kvs name body)
  = removelast (match name with
                | Some n => [n]
                | None => []
                end ++ marker_names kvs).
Proof.
  revert name body. induction kvs as [|[k v] kvs IH]; intros name body.
  - destruct name; reflexivity.
  - simpl. unfold marker_names, is_marker in *. simpl.
    destruct (String.eqb k "Volume Name").
    + destruct name as [n|]; simpl.
      * rewrite IH. reflexivity.
      * rewrite IH. reflexivity.
    + apply IH.
Qed.

Lemma last_name (names : list string) (n : string) :
  fold_left (fun _ x => Some x) names None = Some n ->
  names = removelast names ++ [n].
Proof.
  destruct names as [|a names]; [discriminate|].
  destruct (@exists_last _ (a :: names)) as (l & x & Hl); [discriminate|].
  rewrite Hl. rewrite fold_left_app. simpl.
  intros H. injection H as <-. rewrite removelast_last. reflexivity.
Qed.

Lemma commit_last_assign (st : locals) :
  commit_last st = fold_left assign (final_assignment st) (l_data st).
Proof.
  unfold commit_last, final_assignment.
  destruct (l_name st) as [n|]; [|reflexivity].
  destruct (truthy n && Dict.truthy (l_body st)); reflexivity.
Qed.

(** The mapping a completed parse leaves in [self.data] is the outcome of
    its assignments, made in order on an empty dictionary. *)
Lemma parsed_data (get_active_lines : list string -> option string -> list string)
      (self : t) (content : list string) (kvs : list (string * string)) :
  pairs (get_active_lines content None) = Ok kvs ->
  let st := run kvs init in
  fst (loop (get_active_lines content None) init) = st /\
  data (fst (parse_content get_active_lines self content))
  = Dict.of_list (assignments kvs None Dict.empty ++ final_assignment st) /\
  (snd (parse_content get_active_lines self content) = Ok tt <->
   data (fst (parse_content get_active_lines self content)) <> []).
Proof.
  intros H st. unfold parse_content. cbv zeta.
  change (data {| data := Dict.empty |}) with (@Dict.empty record).
  fold init. rewrite (loop_pairs _ _ H init). fold st. simpl.
  assert (Hd : commit_last st
               = Dict.of_list (assignments kvs None Dict.empty
                                           ++ final_assignment st)).
  { rewrite commit_last_assign. unfold Dict.of_list. fold (@assign record).
    rewrite fold_left_app. f_equal. unfold st. rewrite run_data. reflexivity. }
  split; [reflexivity|].
  destruct (commit_last st) as [|p d] eqn:E; simpl; rewrite <- Hd.
  - split; [reflexivity|]. split; [discriminate|congruence].
  - split; [reflexivity|]. split; [discriminate|reflexivity].
Qed.

End InfoVolumes.

Lemma last_marker (names : list string) :
  fold_left (fun _ x => Some x) names None = last (map Some names) None.
Proof.
  destruct names as [|a names]; [reflexivity|].
  destruct (@exists_last _ (a :: names)) as (l & x & Hl); [discriminate|].
  rewrite Hl, fold_left_app, map_app.
  change (map Some [x]) with [Some x]. rewrite last_last. reflexivity.
Qed.

(** C2, as stated, fails: a volume name that is still current when the
    lines run out is committed only if it is non-empty and its record is
    non-empty.  Two markers give one entry here, the second volume having
    no attribute line. *)
Lemma info_last_volume_without_attributes_dropped :
  let content := ["Volume Name: vol_a"; "Type: Replicate"; "Volume Name: vol_b"] in
  marker_names
    [("Volume Name", "vol_a"); ("Type", "Replicate"); ("Volume Name", "vol_b")]
  = ["vol_a"; "vol_b"] /\
  pairs (Utilities.get_active_lines content None)
  = Ok [("Volume Name", "vol_a"); ("Type", "Replicate");
        ("Volume Name", "vol_b")] /\
  fst (GlusterVolInfo.loop (Utilities.get_active_lines content None)
                           GlusterVolInfo.init)
  = {| GlusterVolInfo.l_data := [("vol_a", [("Type", "Replicate")])];
       GlusterVolInfo.l_name := Some "vol_b";
       GlusterVolInfo.l_body := [] |} /\
  GlusterVolInfo.parse_content
    Utilities.get_active_lines {| GlusterVolInfo.data := [] |} content
  = ({| GlusterVolInfo.data := [("vol_a", [("Type", "Replicate")])] |}, Ok tt).
Proof. vm_compute. repeat split. Qed.

(** C2 (amended).  After all active lines are consumed, a current volume
    name is committed to the result together with its accumulated record
    when the name is non-empty and the record is non-empty, and is left
    out otherwise; consequently, for every input whose active lines all
    have a colon and whose [N] marker lines carry pairwise different
    names, the last one non-empty and with a non-empty record, the result
    has exactly [N] entries. *)
Theorem info_last_volume_committed
        (get_active_lines : list string -> option string -> list string)
        (self : GlusterVolInfo.t) (content : list string)
        (kvs : list (string * string)) :
  pairs (get_active_lines content None) = Ok kvs ->
  let out := GlusterVolInfo.parse_content get_active_lines self content in
  let st :=
    fst (GlusterVolInfo.loop (get_active_lines content None)
                             GlusterVolInfo.init) in
  GlusterVolInfo.data (fst out) = GlusterVolInfo.commit_last st /\
  (forall name,
      GlusterVolInfo.l_name st = Some name ->
      name <> EmptyString -> GlusterVolInfo.l_body st <> [] ->
      GlusterVolInfo.commit_last st
      = Dict.set name (GlusterVolInfo.l_body st) (GlusterVolInfo.l_data st)) /\
  (forall name,
      GlusterVolInfo.l_name st = Some name ->
      name = EmptyString \/ GlusterVolInfo.l_body st = [] ->
      GlusterVolInfo.commit_last st = GlusterVolInfo.l_data st) /\
  (forall name,
      NoDup (marker_names kvs) ->
      GlusterVolInfo.l_name st = Some name ->
      name <> EmptyString -> GlusterVolInfo.l_body st <> [] ->
      snd out = Ok tt /\
      List.length (GlusterVolInfo.data (fst out))
      = List.length (marker_names kvs)).
Proof.
  intros H out st.
  destruct (parsed_data get_active_lines self content kvs H)
    as (Hst & Hdata & Hok).
  fold out in Hdata, Hok. fold st in Hst. rewrite <- Hst in Hdata.
  assert (Hcommit : GlusterVolInfo.data (fst out)
                    = GlusterVolInfo.commit_last st).
  { subst out. unfold GlusterVolInfo.parse_content. cbv zeta.
    change (GlusterVolInfo.data {| GlusterVolInfo.data := Dict.empty |})
      with (@Dict.empty GlusterVolInfo.record).
    fold GlusterVolInfo.init. subst st.
    rewrite (loop_pairs _ _ H GlusterVolInfo.init). simpl.
    destruct (GlusterVolInfo.commit_last _); reflexivity. }
  assert (Hyes : forall name,
             GlusterVolInfo.l_name st = Some name ->
             name <> EmptyString -> GlusterVolInfo.l_body st <> [] ->
             GlusterVolInfo.commit_last st
             = Dict.set name (GlusterVolInfo.l_body st)
                        (GlusterVolInfo.l_data st)).
  { intros name Hn Hne Hb. unfold GlusterVolInfo.commit_last. rewrite Hn.
    destruct name; [congruence|].
    destruct (GlusterVolInfo.l_body st); [congruence|]. reflexivity. }
  split; [exact Hcommit|]. split; [exact Hyes|]. split.
  - intros name Hn Hor. unfold GlusterVolInfo.commit_last. rewrite Hn.
    destruct Hor as [-> | ->]; [reflexivity|].
    rewrite andb_false_r. reflexivity.
  - intros name Hnd Hn Hne Hb.
    assert (Hl : marker_names kvs = removelast (marker_names kvs) ++ [name]).
    { apply last_name. rewrite <- Hn, Hst, run_name. reflexivity. }
    split.
    + apply Hok. rewrite Hcommit, (Hyes name) by assumption.
      apply set_not_empty.
    + rewrite <- (length_map fst).
      fold (Dict.keys (GlusterVolInfo.data (fst out))).
      rewrite Hdata. unfold Dict.of_list. fold (@assign GlusterVolInfo.record).
      rewrite keys_assign_all, add_keys_from_empty, map_app.
      rewrite assignments_names. unfold final_assignment. rewrite Hn.
      destruct name; [congruence|].
      destruct (GlusterVolInfo.l_body st) eqn:Eb; [congruence|].
      simpl. rewrite <- Hl, first_seen_of_nodup by assumption. reflexivity.
Qed.

Lemma info_last_volume_committed_witness :
  snd (GlusterVolInfo.parse_content
         Utilities.get_active_lines {| GlusterVolInfo.data := [] |}
         ["Volume Name: vol_a"; "Type: Replicate";
          "Volume Name: vol_b"; "Type: Distribute"])
  = Ok tt /\
  List.length
    (GlusterVolInfo.data
       (fst (GlusterVolInfo.parse_content
               Utilities.get_active_lines {| GlusterVolInfo.data := [] |}
               ["Volume Name: vol_a"; "Type: Replicate";
                "Volume Name: vol_b"; "Type: Distribute"])))
  = 2.
Proof.
  destruct (info_last_volume_committed
              Utilities.get_active_lines {| GlusterVolInfo.data := [] |}
              ["Volume Name: vol_a"; "Type: Replicate";
               "Volume Name: vol_b"; "Type: Distribute"]
              [("Volume Name", "vol_a"); ("Type", "Replicate");
               ("Volume Name", "vol_b"); ("Type", "Distribute")]
              eq_refl)
    as (_ & _ & _ & Hcount).
  apply (Hcount "vol_b").
  - vm_compute. repeat constructor; simpl; intuition discriminate.
  - reflexivity.
  - discriminate.
  - vm_compute. discriminate.
Defined.

(** C8, as stated, fails.  On the first input the values after the
    markers are ["vol_a"] and ["vol_b"], yet the only key is ["vol_a"]:
    the last volume has no attribute line and is not committed.  On the
    second input the name ["vol_a"] occurs under two markers and the
    record of its last occurrence, which is empty, does not replace the
    earlier one. *)
Lemma info_keys_miss_last_marker :
  marker_names [("Volume Name", "vol_a"); ("Type", "Replicate");
                ("Volume Name", "vol_b")]
  = ["vol_a"; "vol_b"] /\
  GlusterVolInfo.parse_content
    Utilities.get_active_lines {| GlusterVolInfo.data := [] |}
    ["Volume Name: vol_a"; "Type: Replicate"; "Volume Name: vol_b"]
  = ({| GlusterVolInfo.data := [("vol_a", [("Type", "Replicate")])] |}, Ok tt) /\
  GlusterVolInfo.parse_content
    Utilities.get_active_lines {| GlusterVolInfo.data := [] |}
    ["Volume Name: vol_a"; "Type: Replicate"; "Volume Name: vol_a"]
  = ({| GlusterVolInfo.data := [("vol_a", [("Type", "Replicate")])] |}, Ok tt).
Proof. vm_compute. repeat split. Qed.

(** C8 (amended).  For every info input whose active lines all have a
    colon, the keys of the mapping that [parse_content] builds are the
    names committed: the values after the markers other than the last
    one, and the value after the last marker when it is non-empty and its
    record is non-empty.  The keys stand in the order in which each name
    is first committed and are unique; when a name is committed more than
    once, the record of its last committed occurrence replaces the
    earlier ones. *)
Theorem info_keys_in_commit_order
        (get_active_lines : list string -> option string -> list string)
        (self : GlusterVolInfo.t) (content : list string)
        (kvs : list (string * string)) :
  pairs (get_active_lines content None) = Ok kvs ->
  let out := GlusterVolInfo.parse_content get_active_lines self content in
  let st :=
    fst (GlusterVolInfo.loop (get_active_lines content None)
                             GlusterVolInfo.init) in
  let committed := assignments kvs None Dict.empty ++ final_assignment st in
  GlusterVolInfo.l_name st = last (map Some (marker_names kvs)) None /\
  map fst committed
  = removelast (marker_names kvs) ++ map fst (final_assignment st) /\
  Dict.keys (GlusterVolInfo.data (fst out)) = first_seen (map fst committed) /\
  NoDup (Dict.keys (GlusterVolInfo.data (fst out))) /\
  (forall name,
      Dict.get name (GlusterVolInfo.data (fst out))
      = last_assoc name committed).
Proof.
  intros H out st committed.
  destruct (parsed_data get_active_lines self content kvs H)
    as (Hst & Hdata & _).
  fold out in Hdata. fold st in Hst. rewrite <- Hst in Hdata.
  fold committed in Hdata.
  assert (Hkeys : Dict.keys (GlusterVolInfo.data (fst out))
                  = first_seen (map fst committed)).
  { rewrite Hdata. unfold Dict.of_list. fold (@assign GlusterVolInfo.record).
    rewrite keys_assign_all. apply add_keys_from_empty. }
  split; [|split; [|split; [|split]]].
  - rewrite Hst, run_name. apply last_marker.
  - unfold committed. rewrite map_app, assignments_names. reflexivity.
  - exact Hkeys.
  - rewrite Hkeys. apply first_seen_nodup.
  - intros name. rewrite Hdata. unfold Dict.of_list.
    fold (@assign GlusterVolInfo.record). rewrite get_assign_all.
    destruct (last_assoc name committed); reflexivity.
Qed.

Lemma info_keys_in_commit_order_witness :
  Dict.keys
    (GlusterVolInfo.data
       (fst (GlusterVolInfo.parse_content
               Utilities.get_active_lines {| GlusterVolInfo.data := [] |}
               ["Volume Name: vol_b"; "Type: Replicate";
                "Volume Name: vol_a"; "Type: Distribute";
                "Volume Name: vol_b"; "Type: Disperse"])))
  = ["vol_b"; "vol_a"] /\
  Dict.get "vol_b"
    (GlusterVolInfo.data
       (fst (GlusterVolInfo.parse_content
               Utilities.get_active_lines {| GlusterVolInfo.data := [] |}
               ["Volume Name: vol_b"; "Type: Replicate";
                "Volume Name: vol_a"; "Type: Distribute";
                "Volume Name: vol_b"; "Type: Disperse"])))
  = Some [("Type", "Disperse")].
Proof.
  destruct (info_keys_in_commit_order
              Utilities.get_active_lines {| GlusterVolInfo.data := [] |}
              ["Volume Name: vol_b"; "Type: Replicate";
               "Volume Name: vol_a"; "Type: Distribute";
               "Volume Name: vol_b"; "Type: Disperse"]
              [("Volume Name", "vol_b"); ("Type", "Replicate");
               ("Volume Name", "vol_a"); ("Type", "Distribute");
               ("Volume Name", "vol_b"); ("Type", "Disperse")]
              eq_refl)
    as (_ & _ & Hkeys & _ & Hget).
  split.
  - rewrite Hkeys. reflexivity.
  - rewrite Hget. reflexivity.
Defined.

(** * Further properties of [GlusterVolInfo.parse_content] *)

Section InfoErrors.

Import GlusterVolInfo.

(** A loop that starts without a current name and meets no marker keeps
    [self.data] empty and [name] unset. *)
Lemma loop_without_marker (lines : list string) :
  (forall line val, In line lines -> split_line line <> Ok ("Volume Name", val)) ->
  forall body,
  exists st e,
    loop lines {| l_data := Dict.empty; l_name := None; l_body := body |}
    = (st, e) /\
    l_data st = [] /\ l_name st = None /\
    (e = None \/ e = Some ParseException).
Proof.
  induction lines as [|line lines IH]; intros Hno body; simpl.
  - eexists. eexists. split; [reflexivity|]. simpl. auto.
  - destruct (step _ line) as [st1|e1] eqn:Est.
    + unfold step in Est.
      destruct (split_line line) as [[k v]|e1] eqn:Es; simpl in Est;
        [|discriminate].
      injection Est as <-. unfold store. simpl.
      destruct (String.eqb k "Volume Name") eqn:Ek.
      * apply String.eqb_eq in Ek. subst k.
        exfalso. apply (Hno line v (or_introl eq_refl)). exact Es.
      * apply IH. intros l val Hl. apply Hno. right. exact Hl.
    + apply step_raises in Est. destruct Est as [-> _].
      eexists. eexists. split; [reflexivity|]. simpl. auto.
Qed.

End InfoErrors.

(** X1.  [GlusterVolInfo.parse_content] either returns or raises
    [ParseException]: no other exception leaves it, whatever the input. *)
Theorem info_raises_only_parse_exception
        (get_active_lines : list string -> option string -> list string)
        (self : GlusterVolInfo.t) (content : list string) :
  let out := GlusterVolInfo.parse_content get_active_lines self content in
  snd out = Ok tt \/ snd out = Raise ParseException.
Proof.
  unfold GlusterVolInfo.parse_content. cbv zeta.
  destruct (GlusterVolInfo.loop _ _) as [st [e|]] eqn:El; simpl.
  - right. destruct (loop_raises _ _ _ _ El) as [-> _]. reflexivity.
  - destruct (GlusterVolInfo.commit_last st); simpl; auto.
Qed.

(** X2.  An input none of whose active lines is a ["Volume Name"] line
    yields no volume: [parse_content] raises [ParseException] and leaves
    [self.data] empty, however many attribute lines there are. *)
Theorem info_without_marker_raises
        (get_active_lines : list string -> option string -> list string)
        (self : GlusterVolInfo.t) (content : list string) :
  (forall line val,
      In line (get_active_lines content None) ->
      GlusterVolInfo.split_line line <> Ok ("Volume Name", val)) ->
  GlusterVolInfo.parse_content get_active_lines self content
  = ({| GlusterVolInfo.data := [] |}, Raise ParseException).
Proof.
  intros H. unfold GlusterVolInfo.parse_content. cbv zeta.
  change (GlusterVolInfo.data {| GlusterVolInfo.data := Dict.empty |})
    with (@Dict.empty GlusterVolInfo.record).
  destruct (loop_without_marker _ H Dict.empty)
    as (st & e & -> & Hd & Hn & He).
  destruct He as [-> | ->].
  - unfold GlusterVolInfo.commit_last. rewrite Hn, Hd. reflexivity.
  - rewrite Hd. reflexivity.
Qed.

Lemma info_without_marker_raises_witness :
  GlusterVolInfo.parse_content
    Utilities.get_active_lines {| GlusterVolInfo.data := [] |}
    ["Type: Replicate"; "Status: Started"]
  = ({| GlusterVolInfo.data := [] |}, Raise ParseException).
Proof.
  apply info_without_marker_raises.
  vm_compute. intros line val [<-|[<-|[]]]; discriminate.
Defined.

Section InfoTrimmed.

Import GlusterVolInfo.

Lemma value_trimmed (s a b : string) :
  strip s = (a ++ String ":" b)%string -> trimmed (lstrip b).
Proof.
  intros Heq. unfold trimmed.
  assert (Hb : rstrip b = b).
  { apply rstrip_tail with (c := ":"%char).
    apply rstrip_app_r with (p := a).
    rewrite <- Heq. apply rstrip_strip. }
  unfold strip. rewrite (rstrip_lstrip _ Hb). apply lstrip_idem.
Qed.

Lemma split_line_trimmed (line k v : string) :
  split_line line = Ok (k, v) -> trimmed k /\ trimmed v.
Proof.
  destruct (contains ":" line) eqn:Hc.
  - destruct (split_line_found _ Hc) as (a & b & Heq & _ & ->).
    intros H. injection H as <- <-. split.
    + apply strip_idem.
    + apply (value_trimmed _ _ _ Heq).
  - rewrite (split_line_missing _ Hc). discriminate.
Qed.

Lemma trimmed_lstrip_char (v : string) :
  trimmed v -> lstrip_char " " v = v.
Proof.
  unfold trimmed, strip. intros H. rewrite <- H. apply lstrip_char_space.
Qed.

Lemma set_forall {V : Type} (P : string * V -> Prop) (k : string) (v : V)
      (d : Dict.t V) :
  Forall P d -> P (k, v) -> Forall P (Dict.set k v d).
Proof.
  intros Hd Hkv. induction Hd as [|[k' v'] d Hp Hd IH]; simpl.
  - constructor; [exact Hkv|constructor].
  - destruct (String.eqb k' k); constructor; assumption.
Qed.

Lemma store_trimmed (st : locals) (k v : string) :
  trimmed k -> trimmed v -> locals_trimmed st -> locals_trimmed (store st k v).
Proof.
  intros Hk Hv (Hd & Hn & Hb). unfold store.
  destruct (String.eqb k "Volume Name").
  - destruct (l_name st) as [n|] eqn:En; repeat split; simpl.
    + apply set_forall; [exact Hd|]. simpl. split; [|exact Hb].
      apply Hn. reflexivity.
    + intros n' H. injection H as <-. exact Hv.
    + constructor.
    + exact Hd.
    + intros n' H. injection H as <-. exact Hv.
    + exact Hb.
  - repeat split; simpl; [exact Hd|exact Hn|].
    apply set_forall; [exact Hb|]. simpl. split.
    + apply strip_idem.
    + rewrite (trimmed_lstrip_char _ Hv). exact Hv.
Qed.

Lemma loop_trimmed (lines : list string) (st : locals) :
  locals_trimmed st -> locals_trimmed (fst (loop lines st)).
Proof.
  revert st. induction lines as [|line lines IH]; intros st Hst; simpl.
  - exact Hst.
  - unfold step. destruct (split_line line) as [[k v]|e] eqn:Es; simpl.
    + apply IH. destruct (split_line_trimmed _ _ _ Es) as [Hk Hv].
      apply store_trimmed; assumption.
    + exact Hst.
Qed.

Lemma commit_last_trimmed (st : locals) :
  locals_trimmed st -> data_trimmed (commit_last st).
Proof.
  intros (Hd & Hn & Hb). unfold commit_last.
  destruct (l_name st) as [n|]; [|exact Hd].
  destruct (truthy n && Dict.truthy (l_body st)); [|exact Hd].
  apply set_forall; [exact Hd|]. simpl. split; [|exact Hb].
  apply Hn. reflexivity.
Qed.

End InfoTrimmed.

(** X3.  Whatever the input and whatever the outcome, the mapping that
    [GlusterVolInfo.parse_content] leaves in [self.data] carries no
    whitespace at either end of any volume name, attribute key or
    attribute value. *)
Theorem info_data_trimmed
        (get_active_lines : list string -> option string -> list string)
        (self : GlusterVolInfo.t) (content : list string) :
  data_trimmed
    (GlusterVolInfo.data
       (fst (GlusterVolInfo.parse_content get_active_lines self content))).
Proof.
  unfold GlusterVolInfo.parse_content. cbv zeta.
  change (GlusterVolInfo.data {| GlusterVolInfo.data := Dict.empty |})
    with (@Dict.empty GlusterVolInfo.record).
  assert (Hst : locals_trimmed
                  (fst (GlusterVolInfo.loop
                          (get_active_lines content None)
                          {| GlusterVolInfo.l_data := Dict.empty;
                             GlusterVolInfo.l_name := None;
                             GlusterVolInfo.l_body := Dict.empty |}))).
  { apply loop_trimmed. repeat split; simpl; try constructor. discriminate. }
  destruct (GlusterVolInfo.loop _ _) as [st [e|]]; simpl in *.
  - apply Hst.
  - pose proof (commit_last_trimmed _ Hst) as Hc.
    destruct (GlusterVolInfo.commit_last st); simpl; exact Hc.
Qed.

Section InfoBlocks.

Import GlusterVolInfo.

Lemma run_app (a b : list (string * string)) (st : locals) :
  run (a ++ b) st = run b (run a st).
Proof. unfold run. apply fold_left_app. Qed.

Lemma record_of_app (a b : list (string * string)) (body : record) :
  record_of (a ++ b) body = record_of b (record_of a body).
Proof. unfold record_of. apply fold_left_app. Qed.

(** Attribute lines only touch the current record. *)
Lemma run_attrs (attrs : list (string * string)) (st : locals) :
  marker_free attrs ->
  run attrs st
  = {| l_data := l_data st;
       l_name := l_name st;
       l_body := record_of attrs (l_body st) |}.
Proof.
  intros H. revert st. induction H as [|[k v] attrs Hk _ IH]; intros st.
  - destruct st. reflexivity.
  - unfold run in *. simpl. rewrite IH. unfold store.
    unfold is_marker in Hk. simpl in Hk. rewrite Hk. reflexivity.
Qed.

Lemma run_block_cons (n1 : string) (a1 rest : list (string * string))
      (st : locals) :
  run (block_pairs (n1, a1) ++ rest) st
  = run rest (run a1 (store st "Volume Name" n1)).
Proof.
  unfold run, block_pairs. simpl. rewrite fold_left_app. reflexivity.
Qed.

(** The blocks that follow a current volume [(n, body)]: every volume but
    the last is assigned, the last stays current. *)
Lemma run_blocks (blocks : list (string * list (string * string))) :
  Forall (fun b => marker_free (snd b)) blocks ->
  forall (d : Dict.t record) (n : string) (body : record)
         (closed : list (string * record)) (cur : string * record),
    (n, body) :: map (fun b => (fst b, record_of (snd b) Dict.empty)) blocks
    = closed ++ [cur] ->
    run (List.concat (map block_pairs blocks))
        {| l_data := d; l_name := Some n; l_body := body |}
    = {| l_data := fold_left assign closed d;
         l_name := Some (fst cur);
         l_body := snd cur |}.
Proof.
  induction 1 as [|[n1 a1] blocks Ha _ IH]; intros d n body closed cur Hc.
  - simpl in Hc. destruct closed as [|c closed].
    + simpl in Hc. injection Hc as <-. reflexivity.
    + destruct closed; discriminate.
  - simpl in Hc. destruct closed as [|c closed]; [discriminate|].
    simpl in Hc. injection Hc as <- Hc.
    change (List.concat (map block_pairs ((n1, a1) :: blocks)))
      with (block_pairs (n1, a1) ++ List.concat (map block_pairs blocks)).
    rewrite run_block_cons.
    change (store {| l_data := d; l_name := Some n; l_body := body |}
                  "Volume Name" n1)
      with {| l_data := Dict.set n body d;
              l_name := Some n1;
              l_body := Dict.empty |}.
    rewrite (run_attrs _ _ Ha). simpl l_data. simpl l_name. simpl l_body.
    rewrite (IH _ _ _ _ _ Hc). reflexivity.
Qed.

Lemma pairs_trimmed (lines : list string) (kvs : list (string * string)) :
  pairs lines = Ok kvs ->
  Forall (fun kv => trimmed (fst kv) /\ trimmed (snd kv)) kvs.
Proof.
  revert kvs. induction lines as [|line lines IH]; intros kvs; simpl.
  - intros H. injection H as <-. constructor.
  - destruct (split_line line) as [[k v]|e] eqn:Es; simpl; [|discriminate].
    destruct (pairs lines) as [rest|e]; simpl; [|discriminate].
    intros H. injection H as <-. constructor.
    + exact (split_line_trimmed _ _ _ Es).
    + apply IH. reflexivity.
Qed.

(** On trimmed pairs a record is the dictionary of its pairs. *)
Lemma record_of_trimmed (attrs : list (string * string)) (body : record) :
  Forall (fun kv => trimmed (fst kv) /\ trimmed (snd kv)) attrs ->
  record_of attrs body = fold_left assign attrs body.
Proof.
  intros H. revert body. induction H as [|[k v] attrs [Hk Hv] _ IH];
    intros body; [reflexivity|].
  unfold record_of in *. simpl. rewrite IH. unfold assign at 2. simpl.
  simpl in Hk, Hv. unfold trimmed in Hk. rewrite Hk.
  rewrite (trimmed_lstrip_char _ Hv). reflexivity.
Qed.

Lemma assign_all_not_empty {V : Type} (l : list (string * V)) (d : Dict.t V) :
  l <> [] -> fold_left assign l d <> [].
Proof.
  intros Hl. destruct (@exists_last _ l Hl) as (l' & [k v] & ->).
  rewrite fold_left_app. simpl. apply set_not_empty.
Qed.

End InfoBlocks.

Section InfoBlockResults.

Import GlusterVolInfo.

(** The loop's variables after an input made of blocks. *)
Lemma blocks_state (pre : list (string * string))
      (blocks : list (string * list (string * string)))
      (closed : list (string * record)) (n : string) (r : record) :
  marker_free pre ->
  Forall (fun b => marker_free (snd b)) blocks ->
  volumes pre blocks = closed ++ [(n, r)] ->
  run (pre ++ List.concat (map block_pairs blocks)) init
  = {| l_data := Dict.of_list closed; l_name := Some n; l_body := r |}.
Proof.
  intros Hpre Hblocks Hv.
  destruct blocks as [|[n1 a1] rest].
  - destruct closed; discriminate.
  - inversion Hblocks as [|? ? Ha Hrest]; subst. simpl in Ha.
    change (List.concat (map block_pairs ((n1, a1) :: rest)))
      with (block_pairs (n1, a1) ++ List.concat (map block_pairs rest)).
    rewrite run_app, (run_attrs _ _ Hpre), run_block_cons.
    change (store {| l_data := l_data init;
                     l_name := l_name init;
                     l_body := record_of pre (l_body init) |}
                  "Volume Name" n1)
      with {| l_data := Dict.empty;
              l_name := Some n1;
              l_body := record_of pre Dict.empty |}.
    rewrite (run_attrs _ _ Ha). simpl l_data. simpl l_name. simpl l_body.
    rewrite <- record_of_app.
    rewrite (run_blocks _ Hrest _ _ _ closed (n, r) Hv). reflexivity.
Qed.

(** The outcome of a parse whose loop ends with the volume [n] current. *)
Lemma parse_of_state
      (get_active_lines : list string -> option string -> list string)
      (self : t) (content : list string) (kvs : list (string * string))
      (d : Dict.t record) (n : string) (r : record) :
  pairs (get_active_lines content None) = Ok kvs ->
  run kvs init = {| l_data := d; l_name := Some n; l_body := r |} ->
  (n <> EmptyString -> r <> [] ->
   parse_content get_active_lines self content
   = ({| data := Dict.set n r d |}, Ok tt)) /\
  (n = EmptyString \/ r = [] ->
   data (fst (parse_content get_active_lines self content)) = d).
Proof.
  intros Hp Hrun. unfold parse_content. cbv zeta.
  change (data {| data := Dict.empty |}) with (@Dict.empty record).
  fold init. rewrite (loop_pairs _ _ Hp init), Hrun.
  unfold commit_last. simpl. split.
  - intros Hn Hr. destruct n; [congruence|]. destruct r; [congruence|].
    simpl. destruct (Dict.set _ _ d) eqn:E; [|reflexivity].
    exfalso. exact (set_not_empty _ _ _ E).
  - intros [-> | ->]; simpl.
    + destruct d; reflexivity.
    + rewrite andb_false_r. destruct d; reflexivity.
Qed.

End InfoBlockResults.

(** X4.  An info input made of volume blocks, each a ["Volume Name"]
    line followed by attribute lines, with attribute lines possibly
    standing before the first block: every volume but the last is
    assigned its record, made of exactly the attribute lines of its block
    (the lines before the first block go to the first volume), and the
    last volume is current when the loop ends.  When the last name and
    the last record are non-empty the result is the mapping of all
    volumes; otherwise it is the mapping of all volumes but the last. *)
Theorem info_volume_blocks
        (get_active_lines : list string -> option string -> list string)
        (self : GlusterVolInfo.t) (content : list string)
        (pre : list (string * string))
        (blocks : list (string * list (string * string)))
        (closed : list (string * GlusterVolInfo.record))
        (n : string) (r : GlusterVolInfo.record) :
  pairs (get_active_lines content None)
  = Ok (pre ++ List.concat (map block_pairs blocks)) ->
  marker_free pre ->
  Forall (fun b => marker_free (snd b)) blocks ->
  volumes pre blocks = closed ++ [(n, r)] ->
  let out := GlusterVolInfo.parse_content get_active_lines self content in
  fst (GlusterVolInfo.loop (get_active_lines content None) GlusterVolInfo.init)
  = {| GlusterVolInfo.l_data := Dict.of_list closed;
       GlusterVolInfo.l_name := Some n;
       GlusterVolInfo.l_body := r |} /\
  (n <> EmptyString -> r <> [] ->
   out = ({| GlusterVolInfo.data := Dict.of_list (volumes pre blocks) |},
          Ok tt)) /\
  (n = EmptyString \/ r = [] ->
   GlusterVolInfo.data (fst out) = Dict.of_list closed).
Proof.
  intros Hp Hpre Hblocks Hv out.
  pose proof (blocks_state pre blocks closed n r Hpre Hblocks Hv) as Hrun.
  destruct (parse_of_state get_active_lines self content _ _ _ _ Hp Hrun)
    as [Hyes Hno].
  split; [|split].
  - rewrite (loop_pairs _ _ Hp GlusterVolInfo.init). exact Hrun.
  - intros Hn Hr. subst out. rewrite (Hyes Hn Hr), Hv.
    unfold Dict.of_list. rewrite fold_left_app. reflexivity.
  - exact Hno.
Qed.

Lemma info_volume_blocks_witness :
  GlusterVolInfo.parse_content
    Utilities.get_active_lines {| GlusterVolInfo.data := [] |}
    ["Snapshot Count: 0"; "Volume Name: vol_a"; "Type: Replicate";
     "Volume Name: vol_b"; "Type: Distribute"; "Status: Started"]
  = ({| GlusterVolInfo.data :=
         [("vol_a", [("Snapshot Count", "0"); ("Type", "Replicate")]);
          ("vol_b", [("Type", "Distribute"); ("Status", "Started")])] |},
     Ok tt).
Proof.
  destruct (info_volume_blocks
              Utilities.get_active_lines {| GlusterVolInfo.data := [] |}
              ["Snapshot Count: 0"; "Volume Name: vol_a"; "Type: Replicate";
               "Volume Name: vol_b"; "Type: Distribute"; "Status: Started"]
              [("Snapshot Count", "0")]
              [("vol_a", [("Type", "Replicate")]);
               ("vol_b", [("Type", "Distribute"); ("Status", "Started")])]
              [("vol_a", [("Snapshot Count", "0"); ("Type", "Replicate")])]
              "vol_b" [("Type", "Distribute"); ("Status", "Started")]
              eq_refl)
    as (_ & Hyes & _).
  - repeat constructor.
  - repeat constructor.
  - reflexivity.
  - rewrite Hyes by discriminate. reflexivity.
Defined.

(** X5.  An info input with one volume block, the name non-empty and at
    least one attribute line: the result has this one volume; the keys
    of its record are the attribute keys in the order of their first
    occurrence, and looking a key up gives the value of the last line
    that carries it. *)
Theorem info_single_volume_lookup
        (get_active_lines : list string -> option string -> list string)
        (self : GlusterVolInfo.t) (content : list string)
        (n : string) (attrs : list (string * string)) :
  pairs (get_active_lines content None) = Ok (("Volume Name", n) :: attrs) ->
  marker_free attrs ->
  n <> EmptyString ->
  attrs <> [] ->
  exists r,
    GlusterVolInfo.parse_content get_active_lines self content
    = ({| GlusterVolInfo.data := [(n, r)] |}, Ok tt) /\
    Dict.keys r = first_seen (map fst attrs) /\
    forall k, Dict.get k r = last_assoc k attrs.
Proof.
  intros Hp Hfree Hn Hattrs.
  assert (Htrim : Forall (fun kv => trimmed (fst kv) /\ trimmed (snd kv)) attrs).
  { pose proof (pairs_trimmed _ _ Hp) as H. inversion H; assumption. }
  assert (Hrun : run (("Volume Name", n) :: attrs) GlusterVolInfo.init
                 = {| GlusterVolInfo.l_data := Dict.empty;
                      GlusterVolInfo.l_name := Some n;
                      GlusterVolInfo.l_body := fold_left assign attrs Dict.empty |}).
  { change (run (("Volume Name", n) :: attrs) GlusterVolInfo.init)
      with (run attrs (GlusterVolInfo.store GlusterVolInfo.init "Volume Name" n)).
    change (GlusterVolInfo.store GlusterVolInfo.init "Volume Name" n)
      with {| GlusterVolInfo.l_data := Dict.empty;
              GlusterVolInfo.l_name := Some n;
              GlusterVolInfo.l_body := Dict.empty |}.
    rewrite (run_attrs _ _ Hfree). simpl.
    rewrite (record_of_trimmed _ _ Htrim). reflexivity. }
  destruct (parse_of_state get_active_lines self content _ _ _ _ Hp Hrun)
    as [Hyes _].
  exists (fold_left assign attrs Dict.empty). split; [|split].
  - apply Hyes; [exact Hn|]. apply assign_all_not_empty. exact Hattrs.
  - rewrite keys_assign_all. apply add_keys_from_empty.
  - intros k. rewrite get_assign_all.
    destruct (last_assoc k attrs); reflexivity.
Qed.

Lemma info_single_volume_lookup_witness :
  exists r,
    GlusterVolInfo.parse_content
      Utilities.get_active_lines {| GlusterVolInfo.data := [] |}
      ["Volume Name: test_vol"; "Type: Replicate"; "Status: Created";
       "Status: Started"]
    = ({| GlusterVolInfo.data := [("test_vol", r)] |}, Ok tt) /\
    Dict.keys r
    = first_seen (map fst [("Type", "Replicate"); ("Status", "Created");
                           ("Status", "Started")]) /\
    forall k,
      Dict.get k r
      = last_assoc k [("Type", "Replicate"); ("Status", "Created");
                      ("Status", "Started")].
Proof.
  apply (info_single_volume_lookup
           Utilities.get_active_lines {| GlusterVolInfo.data := [] |}
           ["Volume Name: test_vol"; "Type: Replicate"; "Status: Created";
            "Status: Started"]
           "test_vol"
           [("Type", "Replicate"); ("Status", "Created"); ("Status", "Started")]).
  - reflexivity.
  - repeat constructor.
  - discriminate.
  - discriminate.
Defined.

(** * Further properties of [GlusterVolStatus.parse_content] *)

Section RowErrors.

Lemma unpack2_raises (pieces : list string) (e : exn) :
  unpack2 pieces = Raise e -> e = ValueError.
Proof.
  destruct pieces as [|a [|b [|c l]]]; simpl; congruence.
Qed.

Lemma last_item_raises {A : Type} (l : list A) (e : exn) :
  last_item l = Raise e -> e = IndexError.
Proof.
  induction l as [|a [|b l] IH]; simpl in *; try congruence. exact IH.
Qed.

Lemma item_raises {A : Type} (l : list A) (i : Z) (e : exn) :
  PyList.item l i = Raise e -> e = IndexError.
Proof.
  unfold PyList.item. destruct (i <? 0)%Z; [congruence|].
  destruct (nth_error l (Z.to_nat i)); congruence.
Qed.

End RowErrors.

(** X6.  The enrichment of a row fails in two cases only: with
    [KeyError] when the row has no ["Gluster_process"] column, and with
    [ValueError] when that value starts with ["Brick"] and has no colon.
    In particular taking the last word of the value never fails. *)
Theorem enrich_raises_only (v : GlusterVolStatus.row) (e : exn) :
  GlusterVolStatus.enrich v = Raise e ->
  (e = KeyError /\ Dict.get "Gluster_process" v = None) \/
  (e = ValueError /\
   exists g,
     Dict.get "Gluster_process" v = Some g /\
     startswith g "Brick" = true /\ contains ":" g = false).
Proof.
  unfold GlusterVolStatus.enrich, Dict.item.
  destruct (Dict.get "Gluster_process" v) as [g|] eqn:Hg; simpl.
  - destruct (startswith g "Brick") eqn:Hb.
    + destruct (contains ":" g) eqn:Hc.
      * destruct (split1_found _ _ Hc) as (a & b & Hs & Heq & _).
        rewrite Hs. simpl.
        destruct g as [|c g']; [discriminate|]. simpl in Hb.
        apply andb_true_iff in Hb. destruct Hb as [Hc0 _].
        apply Ascii.eqb_eq in Hc0. subst c.
        destruct a as [|c a']; simpl in Heq; [discriminate|].
        injection Heq as <- _.
        destruct (last_word "B" a' eq_refl) as (w & Hw & _).
        rewrite Hw. simpl. discriminate.
      * rewrite (split1_missing _ _ Hc). simpl.
        intros H. injection H as <-. right. split; [reflexivity|].
        exists g. auto.
    + destruct (startswith g "Self-heal") eqn:Hs; [|discriminate].
      destruct g as [|c g']; [discriminate|]. simpl in Hs.
      apply andb_true_iff in Hs. destruct Hs as [Hc0 _].
      apply Ascii.eqb_eq in Hc0. subst c.
      destruct (last_word "S" g' eq_refl) as (w & Hw & _).
      rewrite Hw. simpl. discriminate.
  - intros H. injection H as <-. left. auto.
Qed.

Lemma enrich_raises_only_witness :
  (KeyError = KeyError /\
   Dict.get "Gluster_process" [("Online", "Y"); ("Pid", "7805")] = None) \/
  (KeyError = ValueError /\
   exists g,
     Dict.get "Gluster_process" [("Online", "Y"); ("Pid", "7805")] = Some g /\
     startswith g "Brick" = true /\ contains ":" g = false).
Proof.
  apply (enrich_raises_only [("Online", "Y"); ("Pid", "7805")] KeyError).
  reflexivity.
Defined.

(** X7.  Enrichment leaves the parsed columns alone: apart from ["IP"],
    ["Directory"] and ["Host"], every key of the enriched row has the
    value it had in the parsed row, and no other key appears. *)
Theorem enrich_keeps_columns (v v' : GlusterVolStatus.row) :
  GlusterVolStatus.enrich v = Ok v' ->
  forall k,
    k <> "IP" -> k <> "Directory" -> k <> "Host" ->
    Dict.get k v' = Dict.get k v.
Proof.
  unfold GlusterVolStatus.enrich, Dict.item.
  destruct (Dict.get "Gluster_process" v) as [g|]; simpl; [|discriminate].
  destruct (startswith g "Brick").
  - destruct (unpack2 (split1 ":" g)) as [[a b]|e]; simpl; [|discriminate].
    destruct (last_item (split a)) as [w|e]; simpl; [|discriminate].
    intros H k Hip Hdir _. injection H as <-.
    rewrite get_set_other by exact Hdir.
    apply get_set_other. exact Hip.
  - destruct (startswith g "Self-heal").
    + destruct (last_item (split g)) as [w|e]; simpl; [|discriminate].
      intros H k _ _ Hhost. injection H as <-.
      apply get_set_other. exact Hhost.
    + intros H k _ _ _. injection H as <-. reflexivity.
Qed.

Lemma enrich_keeps_columns_witness :
  Dict.get "Online"
           [("Gluster_process", "Brick 10.0.0.1:/brick"); ("Online", "Y");
            ("IP", "10.0.0.1"); ("Directory", "/brick")]
  = Dict.get "Online"
             [("Gluster_process", "Brick 10.0.0.1:/brick"); ("Online", "Y")].
Proof.
  apply (enrich_keeps_columns
           [("Gluster_process", "Brick 10.0.0.1:/brick"); ("Online", "Y")]
           [("Gluster_process", "Brick 10.0.0.1:/brick"); ("Online", "Y");
            ("IP", "10.0.0.1"); ("Directory", "/brick")]).
  - reflexivity.
  - discriminate.
  - discriminate.
  - discriminate.
Defined.

Section StatusLoop.

Import GlusterVolStatus.

Variable parse_fixed_table :
  list string -> list (string * string) -> list string -> list string ->
  result (list row).

(** The slice bound of the header at the end of the prefix [pre]. *)
Lemma section_end_at (pre : list Z) (a : Z) (rest : list Z) :
  section_end (pre ++ a :: rest) (Z.of_nat (List.length pre))
  = Ok match rest with
       | b :: _ => b
       | [] => (-1)%Z
       end.
Proof.
  destruct rest as [|b rest].
  - apply section_end_last.
  - unfold section_end. rewrite length_app. simpl List.length.
    rewrite (proj2 (Z.ltb_lt _ _)) by lia.
    unfold PyList.item. rewrite (proj2 (Z.ltb_ge _ 0)) by lia.
    replace (Z.to_nat (Z.of_nat (List.length pre) + 1))
      with (List.length pre + 1)%nat by lia.
    rewrite nth_error_app2 by lia.
    replace (List.length pre + 1 - List.length pre)%nat with 1%nat by lia.
    reflexivity.
Qed.

(** The loop body in terms of the section it handles. *)
Lemma section_as_section_of (content : list string) (pre : list Z) (a : Z)
      (rest : list Z) (d : Dict.t (list row)) :
  section parse_fixed_table content (pre ++ a :: rest)
          (Z.of_nat (List.length pre)) a d
  = (nr <- section_of parse_fixed_table content
                      (a, match rest with
                          | b :: _ => b
                          | [] => (-1)%Z
                          end) ;;
     Ok (assign d nr)).
Proof.
  unfold section, section_of, volume_name, rows_of.
  rewrite section_end_at. simpl.
  destruct (PyList.item content a) as [line|e]; simpl; [|reflexivity].
  destruct (unpack2 (split1 ":" line)) as [[x val]|e]; simpl; [|reflexivity].
  destruct (parse_fixed_table _ _ _ _) as [body|e]; simpl; [|reflexivity].
  destruct (enrich_rows body) as [rows|e]; reflexivity.
Qed.

Lemma enumerate_step (pre : list Z) (a : Z) :
  (Z.of_nat (List.length pre) + 1)%Z = Z.of_nat (List.length (pre ++ [a])).
Proof. rewrite length_app. simpl. lia. Qed.

(** A loop that runs to its end has handled every section in turn. *)
Lemma loop_sections (content : list string) (suf pre : list Z)
      (d d' : Dict.t (list row)) :
  loop parse_fixed_table content (pre ++ suf)
       (PyList.enumerate_from (Z.of_nat (List.length pre)) suf) d
  = (d', None) ->
  exists secs,
    Forall2 (fun se nr => section_of parse_fixed_table content se = Ok nr)
            (bounds suf) secs /\
    d' = fold_left assign secs d.
Proof.
  revert pre d. induction suf as [|a rest IH]; intros pre d; simpl.
  - intros H. injection H as <-. exists []. split; [constructor|reflexivity].
  - rewrite section_as_section_of.
    destruct (section_of parse_fixed_table content _) as [nr|e] eqn:Es; simpl;
      [|discriminate].
    rewrite enumerate_step with (a := a).
    replace (pre ++ a :: rest) with ((pre ++ [a]) ++ rest)
      by (rewrite <- app_assoc; reflexivity).
    intros H. destruct (IH _ _ H) as (secs & Hall & ->).
    exists (nr :: secs). split; [|reflexivity].
    constructor; assumption.
Qed.

(** A loop that fails with [ParseException] got it from the table
    parser. *)
Lemma loop_parse_exception (content : list string) (idxs : list Z)
      (todo : list (Z * Z)) (d d' : Dict.t (list row)) :
  loop parse_fixed_table content idxs todo d = (d', Some ParseException) ->
  exists lines,
    parse_fixed_table lines header_substitute heading_ignore trailing_ignore
    = Raise ParseException.
Proof.
  revert d. induction todo as [|[i idx] todo IH]; intros d; simpl.
  - discriminate.
  - destruct (section parse_fixed_table content idxs i idx d) as [d1|e] eqn:Es.
    + apply IH.
    + intros H. injection H as _ ->. revert Es. unfold section.
      destruct (section_end idxs i) as [end_|e] eqn:Ee; simpl.
      * destruct (PyList.item content idx) as [line|e] eqn:El; simpl.
        -- destruct (unpack2 (split1 ":" line)) as [[x val]|e] eqn:Eu; simpl.
           ++ destruct (parse_fixed_table _ _ _ _) as [body|e] eqn:Ep; simpl.
              ** destruct (enrich_rows body) as [rows|e] eqn:Er; simpl;
                   [discriminate|].
                 intros H. injection H as ->. exfalso.
                 clear - Er. revert Er. induction body as [|v body IHb]; simpl;
                   [discriminate|].
                 destruct (enrich v) as [v'|e] eqn:Ev; simpl.
                 --- destruct (enrich_rows body); simpl; [discriminate|].
                     intros H. injection H as ->. apply IHb. reflexivity.
                 --- intros H. injection H as ->. revert Ev.
                     unfold enrich, Dict.item.
                     destruct (Dict.get "Gluster_process" v) as [g|]; simpl;
                       [|discriminate].
                     destruct (startswith g "Brick").
                     +++ destruct (unpack2 (split1 ":" g)) as [[a b]|e] eqn:E2;
                           simpl.
                         *** destruct (last_item (split a)) as [w|e] eqn:E3;
                               simpl; [discriminate|].
                             apply last_item_raises in E3. congruence.
                         *** apply unpack2_raises in E2. congruence.
                     +++ destruct (startswith g "Self-heal"); [|discriminate].
                         destruct (last_item (split g)) as [w|e] eqn:E3;
                           simpl; [discriminate|].
                         apply last_item_raises in E3. congruence.
              ** intros H. injection H as ->. eexists. exact Ep.
           ++ apply unpack2_raises in Eu. congruence.
        -- apply item_raises in El. congruence.
      * unfold section_end in Ee. destruct (_ <? _)%Z; [|discriminate].
        apply item_raises in Ee. congruence.
Qed.

(** A loop that has a section to handle and runs to its end leaves a
    non-empty mapping. *)
Lemma loop_not_empty (content : list string) (idxs : list Z)
      (todo : list (Z * Z)) (d d' : Dict.t (list row)) :
  loop parse_fixed_table content idxs todo d = (d', None) ->
  todo <> [] \/ d <> [] -> d' <> [].
Proof.
  revert d. induction todo as [|[i idx] todo IH]; intros d; simpl.
  - intros H [Hn|Hn]; [congruence|]. injection H as <-. exact Hn.
  - destruct (section parse_fixed_table content idxs i idx d) as [d1|e] eqn:Es;
      [|discriminate].
    intros H _. apply (IH _ H). right.
    apply section_ok in Es.
    destruct Es as (e0 & l0 & n0 & r0 & _ & _ & _ & _ & ->).
    apply set_not_empty.
Qed.

(** The keys that the loop adds are trimmed. *)
Lemma loop_keys_trimmed (content : list string) (idxs : list Z)
      (todo : list (Z * Z)) (d : Dict.t (list row)) :
  Forall (fun nr => trimmed (fst nr)) d ->
  Forall (fun nr => trimmed (fst nr))
         (fst (loop parse_fixed_table content idxs todo d)).
Proof.
  revert d. induction todo as [|[i idx] todo IH]; intros d Hd; simpl.
  - exact Hd.
  - destruct (section parse_fixed_table content idxs i idx d) as [d1|e] eqn:Es;
      [|exact Hd].
    apply IH. apply section_ok in Es.
    destruct Es as (e0 & l0 & n0 & r0 & _ & _ & Hn & _ & ->).
    apply set_forall; [exact Hd|]. simpl.
    unfold volume_name in Hn.
    destruct (unpack2 (split1 ":" l0)) as [[x val]|e]; simpl in Hn;
      [|discriminate].
    injection Hn as <-. apply strip_idem.
Qed.

End StatusLoop.

(** X8.  For any number of headers: when [GlusterVolStatus.parse_content]
    returns, every header has given a section, cut at the next header
    (at the bound [-1] for the last one), whose volume name and rows were
    assigned in header order.  The keys of the result are the distinct
    volume names in the order of their first header, and a name carried
    by several headers holds the rows of the last of them. *)
Theorem status_sections_in_order
        (get_active_lines : list string -> option string -> list string)
        (parse_fixed_table :
           list string -> list (string * string) -> list string ->
           list string -> result (list GlusterVolStatus.row))
        (self : GlusterVolStatus.t) (content : list string) :
  let active := get_active_lines content (Some "----") in
  let out :=
    GlusterVolStatus.parse_content get_active_lines parse_fixed_table
                                   self content in
  snd out = Ok tt ->
  exists secs,
    Forall2 (fun se nr => section_of parse_fixed_table active se = Ok nr)
            (bounds (GlusterVolStatus.header_indices active)) secs /\
    GlusterVolStatus.data (fst out) = Dict.of_list secs /\
    Dict.keys (GlusterVolStatus.data (fst out)) = first_seen (map fst secs) /\
    forall name,
      Dict.get name (GlusterVolStatus.data (fst out)) = last_assoc name secs.
Proof.
  intros active out. subst out.
  unfold GlusterVolStatus.parse_content. cbv zeta. fold active.
  change (GlusterVolStatus.data {| GlusterVolStatus.data := Dict.empty |})
    with (@Dict.empty (list GlusterVolStatus.row)).
  destruct (GlusterVolStatus.loop _ _ _ _ _) as [d [e|]] eqn:El;
    [discriminate|].
  unfold PyList.enumerate in El.
  pose proof (loop_sections parse_fixed_table active
                            (GlusterVolStatus.header_indices active) []
                            Dict.empty d El) as (secs & Hall & Hd).
  intros _. exists secs.
  assert (Hdata : GlusterVolStatus.data
                    (fst (if negb (Dict.truthy d)
                          then ({| GlusterVolStatus.data := d |},
                                @Raise unit ParseException)
                          else ({| GlusterVolStatus.data := d |}, Ok tt)))
                  = Dict.of_list secs).
  { destruct (negb (Dict.truthy d)); simpl; exact Hd. }
  simpl GlusterVolStatus.data in *. rewrite Hdata.
  split; [exact Hall|]. split; [reflexivity|]. split.
  - unfold Dict.of_list. fold (@assign (list GlusterVolStatus.row)).
    rewrite keys_assign_all. apply add_keys_from_empty.
  - intros name. unfold Dict.of_list.
    fold (@assign (list GlusterVolStatus.row)). rewrite get_assign_all.
    destruct (last_assoc name secs); reflexivity.
Qed.

Lemma status_sections_in_order_witness :
  exists secs,
    Forall2 (fun se nr =>
               section_of Utilities.parse_fixed_table
                          ["Status of volume: vol_a";
                           "Gluster process        TCP Port  RDMA Port  Online  Pid";
                           "Brick 10.0.0.1:/brick  49152     0          Y       26685";
                           "Status of volume: vol_b";
                           "Gluster process        TCP Port  RDMA Port  Online  Pid";
                           "Status of volume: vol_a";
                           "Gluster process        TCP Port  RDMA Port  Online  Pid";
                           "Task Status of Volume vol_a"] se = Ok nr)
            [(0%Z, 3%Z); (3%Z, 5%Z); (5%Z, (-1)%Z)] secs /\
    map fst secs = ["vol_a"; "vol_b"; "vol_a"] /\
    Dict.keys
      (GlusterVolStatus.data
         (fst (GlusterVolStatus.parse_content
                 Utilities.get_active_lines Utilities.parse_fixed_table
                 {| GlusterVolStatus.data := [] |}
                 ["Status of volume: vol_a";
                  "Gluster process        TCP Port  RDMA Port  Online  Pid";
                  "Brick 10.0.0.1:/brick  49152     0          Y       26685";
                  "Status of volume: vol_b";
                  "Gluster process        TCP Port  RDMA Port  Online  Pid";
                  "Status of volume: vol_a";
                  "Gluster process        TCP Port  RDMA Port  Online  Pid";
                  "Task Status of Volume vol_a"])))
    = first_seen (map fst secs).
Proof.
  destruct (status_sections_in_order
              Utilities.get_active_lines Utilities.parse_fixed_table
              {| GlusterVolStatus.data := [] |}
              ["Status of volume: vol_a";
               "Gluster process        TCP Port  RDMA Port  Online  Pid";
               "Brick 10.0.0.1:/brick  49152     0          Y       26685";
               "Status of volume: vol_b";
               "Gluster process        TCP Port  RDMA Port  Online  Pid";
               "Status of volume: vol_a";
               "Gluster process        TCP Port  RDMA Port  Online  Pid";
               "Task Status of Volume vol_a"]
              eq_refl)
    as (secs & Hall & _ & Hkeys & _).
  exists secs. split; [exact Hall|]. split; [|exact Hkeys].
  inversion Hall as [|? [n0 r0] ? ? H0 Hall1]; subst.
  inversion Hall1 as [|? [n1 r1] ? ? H1 Hall2]; subst.
  inversion Hall2 as [|? [n2 r2] ? ? H2 Hall3]; subst.
  inversion Hall3; subst.
  vm_compute in H0, H1, H2.
  injection H0 as <- _. injection H1 as <- _. injection H2 as <- _.
  reflexivity.
Defined.

Section SectionsCover.


End SectionsCover.



(** X10.  A first header line without a colon, such as
    ["Status of volume test_vol"], makes [GlusterVolStatus.parse_content]
    raise [ValueError] before any table is parsed, and [self.data] is
    left empty. *)
Theorem status_first_header_without_colon
        (get_active_lines : list string -> option string -> list string)
        (parse_fixed_table :
           list string -> list (string * string) -> list string ->
           list string -> result (list GlusterVolStatus.row))
        (self : GlusterVolStatus.t) (content : list string)
        (idx : Z) (rest : list Z) (line : string) :
  let active := get_active_lines content (Some "----") in
  GlusterVolStatus.header_indices active = idx :: rest ->
  PyList.item active idx = Ok line ->
  contains ":" line = false ->
  GlusterVolStatus.parse_content get_active_lines parse_fixed_table
                                 self content
  = ({| GlusterVolStatus.data := [] |}, Raise ValueError).
Proof.
  intros active Hidx Hline Hc.
  unfold GlusterVolStatus.parse_content. cbv zeta. fold active.
  rewrite Hidx. unfold PyList.enumerate. simpl PyList.enumerate_from.
  simpl GlusterVolStatus.loop.
  pose proof (section_as_section_of parse_fixed_table active [] idx rest
                                    Dict.empty) as Hsec.
  simpl in Hsec. simpl. rewrite Hsec.
  unfold section_of. simpl fst. rewrite Hline. simpl.
  unfold volume_name. rewrite (split1_missing _ _ Hc). reflexivity.
Qed.

Lemma status_first_header_without_colon_witness :
  GlusterVolStatus.parse_content
    Utilities.get_active_lines Utilities.parse_fixed_table
    {| GlusterVolStatus.data := [] |}
    ["Status of volume test_vol";
     "Gluster process        TCP Port  RDMA Port  Online  Pid";
     "Brick 10.0.0.1:/brick  49152     0          Y       26685";
     "Task Status of Volume test_vol"]
  = ({| GlusterVolStatus.data := [] |}, Raise ValueError).
Proof.
  apply (status_first_header_without_colon
           Utilities.get_active_lines Utilities.parse_fixed_table
           {| GlusterVolStatus.data := [] |}
           ["Status of volume test_vol";
            "Gluster process        TCP Port  RDMA Port  Online  Pid";
            "Brick 10.0.0.1:/brick  49152     0          Y       26685";
            "Task Status of Volume test_vol"]
           0%Z [] "Status of volume test_vol");
    reflexivity.
Defined.

(** X11.  When some active line is a header,
    [GlusterVolStatus.parse_content] raises [ParseException] only if the
    table parser raised it: the parser's own empty-result check fires for
    inputs without a header and for no others. *)
Theorem status_parse_exception_origin
        (get_active_lines : list string -> option string -> list string)
        (parse_fixed_table :
           list string -> list (string * string) -> list string ->
           list string -> result (list GlusterVolStatus.row))
        (self : GlusterVolStatus.t) (content : list string) :
  let active := get_active_lines content (Some "----") in
  GlusterVolStatus.header_indices active <> [] ->
  snd (GlusterVolStatus.parse_content get_active_lines parse_fixed_table
                                      self content)
  = Raise ParseException ->
  exists lines,
    parse_fixed_table lines GlusterVolStatus.header_substitute
                      GlusterVolStatus.heading_ignore
                      GlusterVolStatus.trailing_ignore
    = Raise ParseException.
Proof.
  intros active Hidx.
  unfold GlusterVolStatus.parse_content. cbv zeta. fold active.
  change (GlusterVolStatus.data {| GlusterVolStatus.data := Dict.empty |})
    with (@Dict.empty (list GlusterVolStatus.row)).
  destruct (GlusterVolStatus.loop _ _ _ _ _) as [d [e|]] eqn:El; simpl.
  - intros H. injection H as ->.
    exact (loop_parse_exception _ _ _ _ _ _ El).
  - assert (Hd : d <> []).
    { apply (loop_not_empty _ _ _ _ _ _ El). left.
      unfold PyList.enumerate.
      destruct (GlusterVolStatus.header_indices active); [congruence|].
      discriminate. }
    destruct d; [congruence|]. discriminate.
Qed.

Lemma status_parse_exception_origin_witness :
  exists lines,
    refusing_table_parser lines GlusterVolStatus.header_substitute
                          GlusterVolStatus.heading_ignore
                          GlusterVolStatus.trailing_ignore
    = Raise ParseException.
Proof.
  apply (status_parse_exception_origin
           Utilities.get_active_lines refusing_table_parser
           {| GlusterVolStatus.data := [] |}
           ["Status of volume: test_vol"; "no table"; "last"]).
  - vm_compute. discriminate.
  - reflexivity.
Defined.

(** X12.  Whatever the input and whatever the outcome, every key of the
    mapping that [GlusterVolStatus.parse_content] leaves in [self.data]
    is a volume name without whitespace at either end. *)
Theorem status_keys_trimmed
        (get_active_lines : list string -> option string -> list string)
        (parse_fixed_table :
           list string -> list (string * string) -> list string ->
           list string -> result (list GlusterVolStatus.row))
        (self : GlusterVolStatus.t) (content : list string) :
  Forall trimmed
         (Dict.keys
            (GlusterVolStatus.data
               (fst (GlusterVolStatus.parse_content
                       get_active_lines parse_fixed_table self content)))).
Proof.
  unfold GlusterVolStatus.parse_content. cbv zeta.
  change (GlusterVolStatus.data {| GlusterVolStatus.data := Dict.empty |})
    with (@Dict.empty (list GlusterVolStatus.row)).
  pose proof (loop_keys_trimmed
                parse_fixed_table
                (get_active_lines content (Some "----"))
                (GlusterVolStatus.header_indices
                   (get_active_lines content (Some "----")))
                (PyList.enumerate
                   (GlusterVolStatus.header_indices
                      (get_active_lines content (Some "----"))))
                Dict.empty (Forall_nil _)) as H.
  assert (Hk : forall d : Dict.t (list GlusterVolStatus.row),
             Forall (fun nr => trimmed (fst nr)) d ->
             Forall trimmed (Dict.keys d)).
  { intros d Hd. unfold Dict.keys. rewrite Forall_map. exact Hd. }
  destruct (GlusterVolStatus.loop _ _ _ _ _) as [d [e|]]; simpl in H.
  - exact (Hk d H).
  - destruct (negb _); exact (Hk d H).
Qed.

(** * The empty-result checks and the rows of the result *)

Section ResultFacts.

Lemma header_indices_nil (content : list string) (n : Z) :
  map fst (filter (fun il : Z * string => GlusterVolStatus.is_header (snd il))
                  (PyList.enumerate_from n content)) = [] ->
  forall l, In l content -> startswith l "Status of volume" = false.
Proof.
  revert n. induction content as [|a content IH]; intros n H l Hl.
  - destruct Hl.
  - simpl in H. unfold GlusterVolStatus.is_header at 1 in H.
    destruct (startswith a "Status of volume") eqn:Ea; [discriminate|].
    destruct Hl as [<-|Hl]; [exact Ea|]. exact (IH _ H l Hl).
Qed.

Lemma in_set {V : Type} (kv : string * V) (k : string) (v : V)
      (d : Dict.t V) :
  In kv (Dict.set k v d) -> kv = (k, v) \/ In kv d.
Proof.
  induction d as [|[k' v'] d IH]; simpl.
  - intros [<-|[]]. left. reflexivity.
  - destruct (String.eqb k' k); simpl.
    + intros [<-|H]; auto.
    + intros [<-|H]; auto. destruct (IH H); auto.
Qed.

Lemma in_assign_all {V : Type} (kv : string * V) (l : list (string * V))
      (d : Dict.t V) :
  In kv (fold_left assign l d) -> In kv l \/ In kv d.
Proof.
  revert d. induction l as [|[k v] l IH]; intros d; simpl; [auto|].
  intros H. destruct (IH _ H) as [Hl|Hd]; [auto|].
  unfold assign in Hd. simpl in Hd.
  destruct (in_set _ _ _ _ Hd) as [->|Hd']; auto.
Qed.

Lemma forall2_in_r {A B : Type} (R : A -> B -> Prop) (l : list A)
      (l' : list B) (y : B) :
  Forall2 R l l' -> In y l' -> exists x, In x l /\ R x y.
Proof.
  induction 1 as [|x y' l l' Hxy _ IH]; simpl; [tauto|].
  intros [<-|Hy].
  - exists x. auto.
  - destruct (IH Hy) as (x' & Hin & Hr). exists x'. auto.
Qed.

End ResultFacts.

(** C5, as stated, fails: [GlusterVolInfo.parse_content] also raises
    [ParseException] for an active line without a colon, and does so
    with a volume already in its mapping. *)
Lemma info_raises_with_volume_committed :
  GlusterVolInfo.parse_content
    Utilities.get_active_lines {| GlusterVolInfo.data := [] |}
    ["Volume Name: vol_a"; "Type: Replicate"; "Volume Name: vol_b"; "Bricks"]
  = ({| GlusterVolInfo.data := [("vol_a", [("Type", "Replicate")])] |},
     Raise ParseException).
Proof. vm_compute. reflexivity. Qed.

(** C5 (amended).  [GlusterVolInfo.parse_content] raises
    [ParseException] exactly when some active line has no colon or the
    mapping it is left with is empty, hence for every input without
    active lines.  [GlusterVolStatus.parse_content] raises
    [ParseException] for every input none of whose active lines starts
    with ["Status of volume"], leaving an empty mapping, and for no other
    input unless the table parser itself raises [ParseException].
    Neither parser returns an empty mapping. *)
Theorem empty_result_raises
        (get_active_lines : list string -> option string -> list string)
        (parse_fixed_table :
           list string -> list (string * string) -> list string ->
           list string -> result (list GlusterVolStatus.row))
        (iself : GlusterVolInfo.t) (sself : GlusterVolStatus.t)
        (content : list string) :
  let info := GlusterVolInfo.parse_content get_active_lines iself content in
  let status :=
    GlusterVolStatus.parse_content get_active_lines parse_fixed_table
                                   sself content in
  let active := get_active_lines content (Some "----") in
  (get_active_lines content None = [] -> snd info = Raise ParseException) /\
  (snd info = Raise ParseException <->
   (exists line,
       In line (get_active_lines content None) /\ contains ":" line = false) \/
   GlusterVolInfo.data (fst info) = []) /\
  (snd info = Ok tt -> GlusterVolInfo.data (fst info) <> []) /\
  ((forall l, In l active -> startswith l "Status of volume" = false) ->
   snd status = Raise ParseException /\
   GlusterVolStatus.data (fst status) = []) /\
  (snd status = Raise ParseException ->
   (forall l, In l active -> startswith l "Status of volume" = false) \/
   exists lines,
     parse_fixed_table lines GlusterVolStatus.header_substitute
                       GlusterVolStatus.heading_ignore
                       GlusterVolStatus.trailing_ignore
     = Raise ParseException) /\
  (snd status = Ok tt -> GlusterVolStatus.data (fst status) <> []).
Proof.
  intros info status active. subst info status.
  unfold GlusterVolInfo.parse_content, GlusterVolStatus.parse_content.
  cbv zeta. fold active.
  change (GlusterVolInfo.data {| GlusterVolInfo.data := Dict.empty |})
    with (@Dict.empty GlusterVolInfo.record).
  change (GlusterVolStatus.data {| GlusterVolStatus.data := Dict.empty |})
    with (@Dict.empty (list GlusterVolStatus.row)).
  fold GlusterVolInfo.init.
  split; [|split; [|split; [|split; [|split]]]].
  - intros ->. reflexivity.
  - destruct (GlusterVolInfo.loop _ _) as [st [e|]] eqn:El; simpl.
    + destruct (loop_raises _ _ _ _ El) as [-> Hline]. split; auto.
    + destruct (GlusterVolInfo.commit_last st) eqn:Ec; simpl.
      * split; auto.
      * split; [discriminate|]. intros [Hline|H]; [|discriminate].
        pose proof (@loop_missing _ Hline GlusterVolInfo.init) as Hl.
        rewrite El in Hl. discriminate.
  - destruct (GlusterVolInfo.loop _ _) as [st [e|]]; simpl; [discriminate|].
    destruct (GlusterVolInfo.commit_last st); simpl; discriminate.
  - intros H. unfold GlusterVolStatus.header_indices, PyList.enumerate.
    rewrite (no_header_indices _ _ H). split; reflexivity.
  - destruct (GlusterVolStatus.loop _ _ _ _ _) as [d [e|]] eqn:El; simpl.
    + intros H. injection H as ->. right.
      exact (loop_parse_exception _ _ _ _ _ _ El).
    + destruct d as [|p d]; simpl; [|discriminate]. intros _. left.
      apply (header_indices_nil active 0).
      fold (PyList.enumerate active).
      fold (GlusterVolStatus.header_indices active).
      destruct (GlusterVolStatus.header_indices active) as [|i idxs] eqn:Ei;
        [reflexivity|].
      exfalso. apply (loop_not_empty _ _ _ _ _ _ El); [|reflexivity].
      left. discriminate.
  - destruct (GlusterVolStatus.loop _ _ _ _ _) as [d [e|]]; simpl;
      [discriminate|].
    destruct d; simpl; discriminate.
Qed.

Lemma empty_result_raises_witness :
  snd (GlusterVolInfo.parse_content
         Utilities.get_active_lines {| GlusterVolInfo.data := [] |}
         ["# gluster volume info"; "   "])
  = Raise ParseException /\
  snd (GlusterVolStatus.parse_content
         Utilities.get_active_lines Utilities.parse_fixed_table
         {| GlusterVolStatus.data := [] |}
         ["# gluster volume info"; "   "])
  = Raise ParseException.
Proof.
  pose proof (empty_result_raises
                Utilities.get_active_lines Utilities.parse_fixed_table
                {| GlusterVolInfo.data := [] |}
                {| GlusterVolStatus.data := [] |}
                ["# gluster volume info"; "   "]) as H.
  cbv zeta in H. destruct H as (Hi & _ & _ & Hs & _).
  split.
  - apply Hi. reflexivity.
  - destruct Hs as [Hraise _]; [|exact Hraise].
    simpl. intros l [<-|[]]. reflexivity.
Defined.

(** C6, as stated, fails: a row whose ["Gluster_process"] value starts
    with ["Brick"] and has no colon gets no ["IP"] and no ["Directory"];
    its enrichment raises [ValueError], and so does [parse_content],
    which stores no row at all. *)
Lemma brick_row_without_colon_gets_no_ip :
  startswith "Brick /home/brick" "Brick" = true /\
  GlusterVolStatus.enrich
    [("Gluster_process", "Brick /home/brick"); ("TCP_Port", "49152")]
  = Raise ValueError /\
  GlusterVolStatus.parse_content
    Utilities.get_active_lines Utilities.parse_fixed_table
    {| GlusterVolStatus.data := [] |}
    ["Status of volume: test_vol";
     "Gluster process        TCP Port  RDMA Port  Online  Pid";
     "Brick /home/brick      49152     0          Y       26685";
     "Self-heal Daemon on h1 N/A       N/A        Y       7805";
     "Task Status of Volume test_vol"]
  = ({| GlusterVolStatus.data := [] |}, Raise ValueError).
Proof. vm_compute. repeat split. Qed.

(** C6 (amended).  When [GlusterVolStatus.parse_content] returns, every
    row stored in its result is the enrichment of a row that the table
    parser returned for one of the sections, row by row and in order.
    Enrichment goes by the row's ["Gluster_process"] value: a value that
    starts with ["Brick"] and contains a colon gives the row the key
    ["IP"], the last whitespace-delimited word before the first colon,
    and the key ["Directory"], the trimmed text after that colon; a value
    that starts with ["Self-heal"] gives the row the key ["Host"], the
    last whitespace-delimited word of the value; any other row is left
    as it is. *)
Theorem enrich_adds_derived_fields
        (get_active_lines : list string -> option string -> list string)
        (parse_fixed_table :
           list string -> list (string * string) -> list string ->
           list string -> result (list GlusterVolStatus.row))
        (self : GlusterVolStatus.t) (content : list string) :
  let active := get_active_lines content (Some "----") in
  let out :=
    GlusterVolStatus.parse_content get_active_lines parse_fixed_table
                                   self content in
  (snd out = Ok tt ->
   forall name rows,
     In (name, rows) (GlusterVolStatus.data (fst out)) ->
     exists se body,
       In se (bounds (GlusterVolStatus.header_indices active)) /\
       parse_fixed_table (PyList.slice active (fst se) (snd se))
                         GlusterVolStatus.header_substitute
                         GlusterVolStatus.heading_ignore
                         GlusterVolStatus.trailing_ignore
       = Ok body /\
       Forall2 (fun v v' => GlusterVolStatus.enrich v = Ok v') body rows) /\
  (forall (v : GlusterVolStatus.row) (g : string),
      Dict.get "Gluster_process" v = Some g ->
      (startswith g "Brick" = true -> contains ":" g = true ->
       exists before after ip v',
         g = (before ++ String ":" after)%string /\
         contains ":" before = false /\
         last_item (split before) = Ok ip /\
         GlusterVolStatus.enrich v = Ok v' /\
         v' = Dict.set "Directory" (strip after) (Dict.set "IP" ip v) /\
         Dict.get "IP" v' = Some ip /\
         Dict.get "Directory" v' = Some (strip after)) /\
      (startswith g "Brick" = false -> startswith g "Self-heal" = true ->
       exists host v',
         last_item (split g) = Ok host /\
         GlusterVolStatus.enrich v = Ok v' /\
         v' = Dict.set "Host" host v /\
         Dict.get "Host" v' = Some host) /\
      (startswith g "Brick" = false -> startswith g "Self-heal" = false ->
       GlusterVolStatus.enrich v = Ok v)).
Proof.
  intros active out. split.
  - subst out. unfold GlusterVolStatus.parse_content. cbv zeta. fold active.
    change (GlusterVolStatus.data {| GlusterVolStatus.data := Dict.empty |})
      with (@Dict.empty (list GlusterVolStatus.row)).
    destruct (GlusterVolStatus.loop _ _ _ _ _) as [d [e|]] eqn:El;
      [discriminate|].
    unfold PyList.enumerate in El.
    pose proof (loop_sections parse_fixed_table active
                              (GlusterVolStatus.header_indices active) []
                              Dict.empty d El) as (secs & Hall & Hd).
    intros _ name rows Hin.
    assert (Hin' : In (name, rows) d).
    { destruct (negb _) in Hin; exact Hin. }
    rewrite Hd in Hin'.
    destruct (in_assign_all _ _ _ Hin') as [Hs|[]].
    destruct (forall2_in_r _ _ _ _ Hall Hs) as (se & Hse & Hsec).
    simpl in Hse. unfold section_of in Hsec.
    destruct (PyList.item active (fst se)) as [line|e]; simpl in Hsec;
      [|discriminate].
    destruct (volume_name line) as [n|e]; simpl in Hsec; [|discriminate].
    destruct (rows_of parse_fixed_table _) as [rs|e] eqn:Er; simpl in Hsec;
      [|discriminate].
    injection Hsec as _ ->. unfold rows_of in Er.
    destruct (parse_fixed_table _ _ _ _) as [body|e] eqn:Ep; simpl in Er;
      [|discriminate].
    exists se, body. split; [exact Hse|]. split; [exact Ep|].
    apply enrich_rows_each. exact Er.
  - intros v g Hg. unfold GlusterVolStatus.enrich, Dict.item.
    rewrite Hg. simpl. split; [|split].
    + intros Hb Hc. rewrite Hb.
      destruct (split1_found _ _ Hc) as (a & b & Hs & Heq & Ha).
      rewrite Hs. simpl.
      assert (Hw : exists w, last_item (split a) = Ok w /\ strip w = w).
      { destruct g as [|c g']; [discriminate|]. simpl in Hb.
        apply andb_true_iff in Hb. destruct Hb as [Hc0 _].
        apply Ascii.eqb_eq in Hc0. subst c.
        destruct a as [|c a'].
        - simpl in Heq. discriminate.
        - simpl in Heq. injection Heq as <- _. apply last_word. reflexivity. }
      destruct Hw as (w & Hw & Hsw).
      exists a, b, w. rewrite Hw. simpl. rewrite Hsw.
      eexists. repeat split; try assumption.
      * rewrite get_set_other by discriminate. apply get_set_same.
      * apply get_set_same.
    + intros Hb Hs. rewrite Hb, Hs.
      destruct g as [|c g']; [discriminate|]. simpl in Hs.
      apply andb_true_iff in Hs. destruct Hs as [Hc0 _].
      apply Ascii.eqb_eq in Hc0. subst c.
      destruct (last_word "S" g' eq_refl) as (w & Hw & _).
      exists w. rewrite Hw. simpl. eexists. repeat split.
      apply get_set_same.
    + intros Hb Hs. rewrite Hb, Hs. reflexivity.
Qed.

Lemma enrich_adds_derived_fields_witness :
  exists se body,
    In se (bounds
             (GlusterVolStatus.header_indices
                (Utilities.get_active_lines
                   ["Status of volume: test_vol";
                    "Gluster process        TCP Port  RDMA Port  Online  Pid";
                    "Brick 10.0.0.1:/brick  49152     0          Y       26685";
                    "Self-heal Daemon on h1 N/A       N/A        Y       7805";
                    "Task Status of Volume test_vol"]
                   (Some "----")))) /\
    Utilities.parse_fixed_table
      (PyList.slice
         (Utilities.get_active_lines
            ["Status of volume: test_vol";
             "Gluster process        TCP Port  RDMA Port  Online  Pid";
             "Brick 10.0.0.1:/brick  49152     0          Y       26685";
             "Self-heal Daemon on h1 N/A       N/A        Y       7805";
             "Task Status of Volume test_vol"]
            (Some "----"))
         (fst se) (snd se))
      GlusterVolStatus.header_substitute GlusterVolStatus.heading_ignore
      GlusterVolStatus.trailing_ignore
    = Ok body /\
    Forall2 (fun v v' => GlusterVolStatus.enrich v = Ok v') body
            [[("Gluster_process", "Brick 10.0.0.1:/brick");
              ("TCP_Port", "49152"); ("RDMA_Port", "0"); ("Online", "Y");
              ("Pid", "26685"); ("IP", "10.0.0.1"); ("Directory", "/brick")];
             [("Gluster_process", "Self-heal Daemon on h1");
              ("TCP_Port", "N/A"); ("RDMA_Port", "N/A"); ("Online", "Y");
              ("Pid", "7805"); ("Host", "h1")]].
Proof.
  apply (proj1 (enrich_adds_derived_fields
                  Utilities.get_active_lines Utilities.parse_fixed_table
                  {| GlusterVolStatus.data := [] |}
                  ["Status of volume: test_vol";
                   "Gluster process        TCP Port  RDMA Port  Online  Pid";
                   "Brick 10.0.0.1:/brick  49152     0          Y       26685";
                   "Self-heal Daemon on h1 N/A       N/A        Y       7805";
                   "Task Status of Volume test_vol"])
               eq_refl "test_vol").
  vm_compute. left. reflexivity.
Defined.
